(** * Interrupt controller simulation: arbitration, masking and shutdown

    A shallow embedding of [Interrupt_Controller_Simulation.cpp].  The shared
    globals of the program ([pending], the three mask flags, [global_seq],
    [running], the log file) form a record [State]; every thread body is a
    function on that record which also returns the list of effects it
    performs (lock operations, accesses to the shared containers, console
    lines, notifications), so that both the functional behaviour and the
    locking discipline can be read off the same definition. *)

From stdpp Require Import base numbers list strings pretty sorting.
From Stdlib Require Import ZArith Lia Sorted.

Local Open Scope Z_scope.

(** ** Machine integers *)

Module MachineInt.

Definition INT_MAX : Z := 2147483647.

Definition LLONG_MAX : Z := 9223372036854775807.

Definition LLONG_MIN : Z := -9223372036854775808.

(** Two's-complement reduction of [z] to a signed integer of [w] bits. *)
Definition wrap_signed (w : Z) (z : Z) : Z :=
  (z + 2 ^ (w - 1)) mod 2 ^ w - 2 ^ (w - 1).

(** [(int) x]. *)
Definition to_int (z : Z) : Z := wrap_signed 32 z.

(** [(long long) x], also the result of [++] on a [long long]. *)
Definition to_llong (z : Z) : Z := wrap_signed 64 z.

End MachineInt.

Import MachineInt.

(** ** Data model *)

(** [enum Device { PRINTER = 1, MOUSE = 2, KEYBOARD = 3 }] *)
Inductive Device : Set := PRINTER | MOUSE | KEYBOARD.

(** The enumerator values; the controller compares devices through them. *)
Definition device_value (d : Device) : Z :=
  match d with PRINTER => 1 | MOUSE => 2 | KEYBOARD => 3 end.

Global Instance Device_eq_dec : EqDecision Device.
Proof. solve_decision. Defined.

(** [struct InterruptEvent { Device dev; long long seq; time_point timestamp; }] *)
Record InterruptEvent : Set := mkEvent {
  dev : Device;
  seq : Z;
  timestamp : Z
}.

Global Instance InterruptEvent_eq_dec : EqDecision InterruptEvent.
Proof. solve_decision. Defined.

(** The shared globals.  [log_file] is the content of [isr_log.txt] as a list
    of lines, or [None] when the file cannot be opened for appending. *)
Record State := mkState {
  pending : list InterruptEvent;
  masked_keyboard : bool;
  masked_mouse : bool;
  masked_printer : bool;
  global_seq : Z;
  running : bool;
  log_file : option (list string)
}.

Definition set_pending (p : list InterruptEvent) (s : State) : State :=
  mkState p (masked_keyboard s) (masked_mouse s) (masked_printer s)
          (global_seq s) (running s) (log_file s).

Definition set_masked_keyboard (b : bool) (s : State) : State :=
  mkState (pending s) b (masked_mouse s) (masked_printer s)
          (global_seq s) (running s) (log_file s).

Definition set_masked_mouse (b : bool) (s : State) : State :=
  mkState (pending s) (masked_keyboard s) b (masked_printer s)
          (global_seq s) (running s) (log_file s).

Definition set_masked_printer (b : bool) (s : State) : State :=
  mkState (pending s) (masked_keyboard s) (masked_mouse s) b
          (global_seq s) (running s) (log_file s).

Definition set_global_seq (g : Z) (s : State) : State :=
  mkState (pending s) (masked_keyboard s) (masked_mouse s) (masked_printer s)
          g (running s) (log_file s).

Definition set_running (b : bool) (s : State) : State :=
  mkState (pending s) (masked_keyboard s) (masked_mouse s) (masked_printer s)
          (global_seq s) b (log_file s).

Definition set_log_file (f : option (list string)) (s : State) : State :=
  mkState (pending s) (masked_keyboard s) (masked_mouse s) (masked_printer s)
          (global_seq s) (running s) f.

(** The globals as initialised at program start. *)
Definition initial_state (f : option (list string)) : State :=
  mkState [] false false false 0 true f.

(** ** The controller's scan (lines 118-134) *)

(** [bool is_masked = (d == KEYBOARD && masked_keyboard) || ...] *)
Definition is_masked (s : State) (d : Device) : bool :=
  (bool_decide (d = KEYBOARD) && masked_keyboard s)
  || (bool_decide (d = MOUSE) && masked_mouse s)
  || (bool_decide (d = PRINTER) && masked_printer s).

(** The three locals of the scan. *)
Record Best := mkBest {
  best_idx : Z;
  best_dev : Device;
  best_seq : Z
}.

(** [best_idx = -1; best_dev = PRINTER; best_seq = LLONG_MAX] *)
Definition best_init : Best := mkBest (-1) PRINTER LLONG_MAX.

(** One iteration of the [for] loop, at index [i] with [ev = pending[i]]. *)
Definition scan_body (s : State) (i : Z) (ev : InterruptEvent) (b : Best) : Best :=
  if is_masked s (dev ev) then b
  else if (best_idx b =? -1)
          || (device_value (dev ev) >? device_value (best_dev b))
          || (bool_decide (dev ev = best_dev b) && (seq ev <? best_seq b))
       then mkBest i (dev ev) (seq ev)
       else b.

(** [for (int i = 0; i < n; ++i)] where [rest] is [pending] from index [i]
    on.  The counter never exceeds [n], an [int], so [++i] does not wrap. *)
Fixpoint scan_loop (s : State) (n i : Z) (rest : list InterruptEvent) (b : Best) : Best :=
  match rest with
  | [] => b
  | ev :: tl => if i <? n then scan_loop s n (i + 1) tl (scan_body s i ev b) else b
  end.

(** The whole scan; the bound is [(int)pending.size()]. *)
Definition scan (s : State) : Best :=
  scan_loop s (to_int (Z.of_nat (length (pending s)))) 0 (pending s) best_init.

(** The pending vector is small enough for its size to be an [int]. *)
Definition fits_int (p : list InterruptEvent) : Prop :=
  Z.of_nat (length p) <= INT_MAX.

(** [served_before a b]: the arbiter prefers [a] to [b] (or they tie). *)
Definition served_before (a b : InterruptEvent) : Prop :=
  device_value (dev b) < device_value (dev a)
  \/ (dev a = dev b /\ seq a <= seq b).

(** What the locals of the scan say about the part [seen] of the vector. *)
Definition scan_inv (s : State) (seen : list InterruptEvent) (b : Best) : Prop :=
  (best_idx b = -1 /\ forall e, e ∈ seen -> is_masked s (dev e) = true)
  \/ (exists ev, 0 <= best_idx b
        /\ seen !! Z.to_nat (best_idx b) = Some ev
        /\ best_dev b = dev ev /\ best_seq b = seq ev
        /\ is_masked s (dev ev) = false
        /\ forall e, e ∈ seen -> is_masked s (dev e) = false -> served_before ev e).

(** ** Effects *)

(** What a thread does to the outside of its own locals, in program order.
    [IsrBegin] and [IsrEnd] mark the start and the end of the service of an
    event; they carry the event itself, which the printed lines only name. *)
Inductive Effect :=
  | Lock                                   (* mtx acquired *)
  | Unlock                                 (* mtx released *)
  | ReadPending                            (* pending read *)
  | PushPending (ev : InterruptEvent)      (* pending.push_back *)
  | ErasePending (i : Z) (ev : InterruptEvent) (* pending.erase(begin + i) *)
  | ReadMask                               (* masked_* read *)
  | WriteMask (d : Device) (b : bool)      (* masked_* = b *)
  | NotifyOne                              (* cv.notify_one *)
  | NotifyAll                              (* cv.notify_all *)
  | Cout (line : string)                   (* a line on the console *)
  | AppendLog (line : string)              (* append_log(line) *)
  | SleepFor (ms : Z)                      (* this_thread::sleep_for *)
  | WaitFor (ms : Z)                       (* cv.wait_for *)
  | IsrBegin (ev : InterruptEvent)
  | IsrEnd (ev : InterruptEvent).

Global Instance Effect_eq_dec : EqDecision Effect.
Proof. solve_decision. Defined.

(** ** Logging (lines 74-80) *)

(** An [ofstream] after its constructor ran: the lines of the file it is
    positioned after, and its fail bit. *)
Record ofstream := mkStream {
  contents : list string;
  failbit : bool
}.

(** [ofstream f(log_filename, ios::app)] *)
Definition open_append (file : option (list string)) : ofstream :=
  match file with
  | Some ls => mkStream ls false
  | None => mkStream [] true
  end.

(** [void append_log(const string &line)]: the file after the call. *)
Definition append_log (line : string) (file : option (list string)) : option (list string) :=
  let f := open_append file in
  if negb (failbit f) then Some (contents f ++ [line]) else file.

(** [string device_name(Device d)] *)
Definition device_name (d : Device) : string :=
  match d with
  | KEYBOARD => "Keyboard"
  | MOUSE => "Mouse"
  | PRINTER => "Printer"
  end.

(** ** Device threads (lines 92-109) *)

(** One iteration of [device_thread] from the critical section on:
    [pending.push_back({dev, ++global_seq, now})], then [cv.notify_one()].
    A device thread reaches it whenever its sleep ends and it has read
    [running] as true; the flag can be cleared between that read and the
    push, so the step does not depend on [running]. *)
Definition device_thread (d : Device) (now : Z) (s : State) : State * list Effect :=
  let g := to_llong (global_seq s + 1) in
  let ev := mkEvent d g now in
  (set_pending (pending s ++ [ev]) (set_global_seq g s),
   [Lock; PushPending ev; Unlock; NotifyOne]).

(** ** The controller thread (lines 112-190) *)

(** Where the controller is in its loop. *)
Inductive Ctrl :=
  | LoopHead                        (* about to test [while (running)] *)
  | Waiting                         (* in [cv.wait], or about to enter it *)
  | TimedWait                       (* in [cv.wait_for], everything masked *)
  | IsrStart (ev : InterruptEvent)  (* [ev] extracted, lock released *)
  | IsrWork (ev : InterruptEvent)   (* START logged, simulated work running *)
  | Stopped.                        (* the loop was left *)

Global Instance Ctrl_eq_dec : EqDecision Ctrl.
Proof. solve_decision. Defined.

(** The lines printed by the loop over [pending] at lines 140-148. *)
Definition ignored_lines (s : State) : list Effect :=
  flat_map (fun ev : InterruptEvent =>
              if is_masked s (dev ev)
              then [Cout (device_name (dev ev) +:+ " Interrupt Ignored (Masked)")]
              else [])
           (pending s).

(** The simulated work of an ISR, in milliseconds. *)
Definition isr_duration (d : Device) : Z :=
  if bool_decide (d = KEYBOARD) then 300
  else if bool_decide (d = MOUSE) then 500
  else 800.

(** The body of the lock-holding part of one iteration, entered once
    [cv.wait] found its predicate true: lines 116-157. *)
Definition select_pass (s : State) : option (Ctrl * State * list Effect) :=
  if negb (running s) && bool_decide (pending s = [])
  then Some (Stopped, s, [ReadPending; Unlock])
  else
    let b := scan s in
    if best_idx b =? -1
    then Some (TimedWait, s,
               [ReadPending; ReadMask] ++ ignored_lines s ++ [Unlock; WaitFor 200])
    else
      match pending s !! Z.to_nat (best_idx b) with
      | Some ev =>
          Some (IsrStart ev,
                set_pending (delete (Z.to_nat (best_idx b)) (pending s)) s,
                [ReadPending; ReadMask; ErasePending (best_idx b) ev; Unlock])
      | None => None
      end.

(** One step of [controller_thread], from the location [c] of the loop to
    the next.  [now] is the text that [put_time(localtime(...), "%F %T")]
    produces when the step runs.  [None] stands for an access outside the
    vector. *)
Definition controller_thread (now : string) (c : Ctrl) (s : State)
  : option (Ctrl * State * list Effect) :=
  match c with
  | LoopHead =>
      if running s then Some (Waiting, s, []) else Some (Stopped, s, [])
  | Waiting =>
      (* unique_lock ul(mtx); cv.wait(ul, pred) *)
      if negb (bool_decide (pending s = [])) || negb (running s)
      then match select_pass s with
           | Some (c', s', tr) => Some (c', s', [Lock; ReadPending] ++ tr)
           | None => None
           end
      else Some (Waiting, s, [Lock; ReadPending; Unlock])
  | TimedWait =>
      (* wait_for returns with the lock held; continue destroys ul *)
      Some (LoopHead, s, [Lock; Unlock])
  | IsrStart ev =>
      let line := "START | " +:+ device_name (dev ev) +:+ " | seq="
                  +:+ pretty (seq ev) +:+ " | " +:+ now in
      Some (IsrWork ev, set_log_file (append_log line (log_file s)) s,
            [IsrBegin ev;
             Cout (device_name (dev ev) +:+ " Interrupt Triggered → Handling ISR → "
                   +:+ "Started at " +:+ now);
             AppendLog line;
             SleepFor (isr_duration (dev ev))])
  | IsrWork ev =>
      let line := "END   | " +:+ device_name (dev ev) +:+ " | seq="
                  +:+ pretty (seq ev) +:+ " | " +:+ now in
      Some (LoopHead, set_log_file (append_log line (log_file s)) s,
            [Cout (device_name (dev ev) +:+ " ISR Completed at " +:+ now);
             AppendLog line;
             IsrEnd ev])
  | Stopped => Some (Stopped, s, [])
  end.

(** ** The console thread (lines 192-230) *)

Module Console.

(** [isspace] in the "C" locale. *)
Definition is_space (c : Ascii.ascii) : bool :=
  let n := Ascii.nat_of_ascii c in
  (n =? 32)%nat || ((9 <=? n)%nat && (n <=? 13)%nat).

Fixpoint skip_ws (s : string) : string :=
  match s with
  | EmptyString => EmptyString
  | String c r => if is_space c then skip_ws r else s
  end.

Fixpoint take_word (s : string) : string * string :=
  match s with
  | EmptyString => (EmptyString, EmptyString)
  | String c r =>
      if is_space c then (EmptyString, s)
      else let '(w, r') := take_word r in (String c w, r')
  end.

(** [ss >> word] into a fresh string: the word read (empty when the
    stream is exhausted or already failed) and the rest of the stream. *)
Definition extract (s : string) : string * string := take_word (skip_ws s).

End Console.

Definition mask_text (b : bool) : string := if b then "Masked" else "Unmasked".

(** The body of the [while] loop of [user_input_thread] for one line [cmd]
    read by [getline]: the new globals, the effects, and whether the loop
    goes on ([false] after [break]). *)
Definition user_input_thread (cmd : string) (s : State) : State * list Effect * bool :=
  if String.eqb cmd "" then (s, [], true)
  else
    let '(token, rest) := Console.extract cmd in
    if String.eqb token "mask" then
      let '(which, _) := Console.extract rest in
      if String.eqb which "k" then
        (set_masked_keyboard true s,
         [WriteMask KEYBOARD true; Cout "Keyboard masked."; NotifyOne], true)
      else if String.eqb which "m" then
        (set_masked_mouse true s,
         [WriteMask MOUSE true; Cout "Mouse masked."; NotifyOne], true)
      else if String.eqb which "p" then
        (set_masked_printer true s,
         [WriteMask PRINTER true; Cout "Printer masked."; NotifyOne], true)
      else (s, [Cout "Unknown device. Use k/m/p."; NotifyOne], true)
    else if String.eqb token "unmask" then
      let '(which, _) := Console.extract rest in
      if String.eqb which "k" then
        (set_masked_keyboard false s,
         [WriteMask KEYBOARD false; Cout "Keyboard unmasked."; NotifyOne], true)
      else if String.eqb which "m" then
        (set_masked_mouse false s,
         [WriteMask MOUSE false; Cout "Mouse unmasked."; NotifyOne], true)
      else if String.eqb which "p" then
        (set_masked_printer false s,
         [WriteMask PRINTER false; Cout "Printer unmasked."; NotifyOne], true)
      else (s, [Cout "Unknown device. Use k/m/p."; NotifyOne], true)
    else if String.eqb token "status" then
      (s,
       [Lock; Cout "Status:"; ReadMask;
        Cout ("  Keyboard: " +:+ mask_text (masked_keyboard s));
        Cout ("  Mouse:    " +:+ mask_text (masked_mouse s));
        Cout ("  Printer:  " +:+ mask_text (masked_printer s));
        ReadPending;
        Cout ("  Pending interrupts: " +:+ pretty (length (pending s)));
        Unlock], true)
    else if String.eqb token "exit" then
      (set_running false s, [Cout "Exiting..."; NotifyAll], false)
    else
      (s, [Cout "Commands: mask k|m|p, unmask k|m|p, status, exit"], true).

(** [main] after [t_user.join()]: [running = false; cv.notify_all()]. *)
Definition main_shutdown (s : State) : State * list Effect :=
  (set_running false s, [NotifyAll]).

(** ** The whole program as an interleaving of thread steps *)

Inductive Action :=
  | ACtrl (now : string)           (* the controller takes a step *)
  | ADevice (d : Device) (now : Z) (* a device thread raises an interrupt *)
  | AUser (cmd : string)           (* the console thread handles a line *)
  | AMain.                         (* main requests the shutdown *)

Definition sys_step (a : Action) (c : Ctrl) (s : State)
  : option (Ctrl * State * list Effect) :=
  match a with
  | ACtrl now => controller_thread now c s
  | ADevice d now => let '(s', tr) := device_thread d now s in Some (c, s', tr)
  | AUser cmd => let '(s', tr, _) := user_input_thread cmd s in Some (c, s', tr)
  | AMain => let '(s', tr) := main_shutdown s in Some (c, s', tr)
  end.

(** Runs a schedule; the effects of the steps are concatenated. *)
Fixpoint run (acts : list Action) (c : Ctrl) (s : State)
  : option (Ctrl * State * list Effect) :=
  match acts with
  | [] => Some (c, s, [])
  | a :: rest =>
      match sys_step a c s with
      | Some (c1, s1, tr1) =>
          match run rest c1 s1 with
          | Some (c2, s2, tr2) => Some (c2, s2, tr1 ++ tr2)
          | None => None
          end
      | None => None
      end
  end.

(** ** Reading a trace *)

(** The events pushed, in the order of the pushes. *)
Definition inserted (tr : list Effect) : list InterruptEvent :=
  flat_map (fun e => match e with PushPending ev => [ev] | _ => [] end) tr.

(** The events erased from the vector, in the order of the erasures. *)
Definition erased (tr : list Effect) : list InterruptEvent :=
  flat_map (fun e => match e with ErasePending _ ev => [ev] | _ => [] end) tr.

(** The events whose service was started, in the order of service. *)
Definition serviced (tr : list Effect) : list InterruptEvent :=
  flat_map (fun e => match e with IsrBegin ev => [ev] | _ => [] end) tr.

(** The console lines. *)
Definition printed (tr : list Effect) : list string :=
  flat_map (fun e => match e with Cout l => [l] | _ => [] end) tr.

(** The event the controller has extracted but not started to service. *)
Definition in_flight (c : Ctrl) : list InterruptEvent :=
  match c with IsrStart ev => [ev] | _ => [] end.

(** [lock_discipline held tr]: in [tr], started with the lock held or not,
    the lock is never acquired twice or released when free, and every access
    to the pending vector or to a mask flag happens with the lock held. *)
Fixpoint lock_discipline (held : bool) (tr : list Effect) : bool :=
  match tr with
  | [] => true
  | Lock :: tl => negb held && lock_discipline true tl
  | Unlock :: tl => held && lock_discipline false tl
  | (ReadPending | PushPending _ | ErasePending _ _ | ReadMask | WriteMask _ _) :: tl =>
      held && lock_discipline held tl
  | _ :: tl => lock_discipline held tl
  end.

(** ** Predicates used in the statements *)

(** No device is masked. *)
Definition no_masking (s : State) : Prop :=
  masked_keyboard s = false /\ masked_mouse s = false /\ masked_printer s = false.

(** Repeated selection and removal, as the controller does it, collecting
    the events in the order they are handed to the ISR. *)
Fixpoint drain (fuel : nat) (s : State) : list InterruptEvent :=
  match fuel with
  | O => []
  | S f =>
      match select_pass s with
      | Some (IsrStart ev, s', _) => ev :: drain f s'
      | _ => []
      end
  end.

(** The controller is not holding an event. *)
Definition idle (c : Ctrl) : Prop :=
  match c with
  | IsrStart _ | IsrWork _ => False
  | _ => True
  end.

(** Every pending event belongs to a masked device. *)
Definition all_masked (s : State) : Prop :=
  forall e, e ∈ pending s -> is_masked s (dev e) = true.

(** ** Further readers of a trace, measures and predicates *)

(** The lines handed to [append_log], in the order of the calls. *)
Definition logged (tr : list Effect) : list string :=
  flat_map (fun e => match e with AppendLog l => [l] | _ => [] end) tr.

(** The event whose ISR has started and not yet completed. *)
Definition in_service (c : Ctrl) : option InterruptEvent :=
  match c with IsrWork ev => Some ev | _ => None end.

(** [isr_bracket cur tr]: reads [tr] with [cur] in service; a service may
    start only when none is running and may end only the one that runs.
    The result is the event in service after [tr], or [None] when [tr]
    overlaps two services or ends one that did not start. *)
Fixpoint isr_bracket (cur : option InterruptEvent) (tr : list Effect)
  : option (option InterruptEvent) :=
  match tr with
  | [] => Some cur
  | IsrBegin ev :: tl =>
      match cur with
      | None => isr_bracket (Some ev) tl
      | Some _ => None
      end
  | IsrEnd ev :: tl =>
      match cur with
      | Some ev' => if bool_decide (ev' = ev) then isr_bracket None tl else None
      | None => None
      end
  | _ :: tl => isr_bracket cur tl
  end.

Definition is_mask_write (e : Effect) : bool :=
  match e with WriteMask _ _ => true | _ => false end.

Definition is_ctrl (a : Action) : bool :=
  match a with ACtrl _ => true | _ => false end.

Definition is_user (a : Action) : bool :=
  match a with AUser _ => true | _ => false end.

(** An upper bound on the controller steps from [c] to [Stopped] once
    [running] is false. *)
Definition exit_bound (c : Ctrl) : nat :=
  match c with
  | Stopped => 0
  | LoopHead => 1
  | TimedWait | IsrWork _ => 2
  | IsrStart _ => 3
  | Waiting => 4
  end.

(** The device a letter of the console stands for (lines 202-204, 209-211). *)
Definition device_of_letter (w : string) : option Device :=
  if String.eqb w "k" then Some KEYBOARD
  else if String.eqb w "m" then Some MOUSE
  else if String.eqb w "p" then Some PRINTER
  else None.

(** Assignment to the mask flag of device [d]. *)
Definition set_masked (d : Device) (b : bool) (s : State) : State :=
  match d with
  | KEYBOARD => set_masked_keyboard b s
  | MOUSE => set_masked_mouse b s
  | PRINTER => set_masked_printer b s
  end.

(** No two events of the list agree on both device and sequence number. *)
Definition distinct_keys (p : list InterruptEvent) : Prop :=
  forall e e', e ∈ p -> e' ∈ p -> dev e = dev e' -> seq e = seq e' -> e = e'.

(** [main] before it starts the threads (lines 233-241): the log file is
    opened with [ios::trunc] and, if that succeeds, holds the header line
    alone; the two banner lines are printed.  [started] is the value of
    [to_time_t(now())]. *)
Definition main_start (started : Z) (file : option (list string)) : State * list Effect :=
  (initial_state
     (match file with
      | Some _ => Some ["ISR Log Started: " +:+ pretty started]
      | None => None
      end),
   [Cout "Interrupt Controller Simulation (type 'status' to see masks and pending interrupts)";
    Cout "Commands: mask k|m|p, unmask k|m|p, status, exit"]).

(** The number of controller steps in a schedule. *)
Definition ctrl_steps (acts : list Action) : nat :=
  length (List.filter is_ctrl acts).

(** How many more events a controller at [c] can start to service once
    [running] is false. *)
Definition services_left (c : Ctrl) : nat :=
  match c with
  | Waiting | IsrStart _ => 1
  | _ => 0
  end.

(** Whether the lock is held after [tr], started with the lock held or
    not. *)
Fixpoint lock_after (held : bool) (tr : list Effect) : bool :=
  match tr with
  | [] => held
  | Lock :: tl => lock_after true tl
  | Unlock :: tl => lock_after false tl
  | _ :: tl => lock_after held tl
  end.


(** The events whose service was completed, in the order of completion. *)
Definition completed (tr : list Effect) : list InterruptEvent :=
  flat_map (fun e => match e with IsrEnd ev => [ev] | _ => [] end) tr.

(** Every character of the string is white space. *)
Fixpoint blank (s : string) : bool :=
  match s with
  | EmptyString => true
  | String c r => Console.is_space c && blank r
  end.

(** No character of the string is white space. *)
Fixpoint no_space (s : string) : bool :=
  match s with
  | EmptyString => true
  | String c r => negb (Console.is_space c) && no_space r
  end.

(** * Properties *)

(** ** Machine integers *)

Lemma to_int_small z : 0 <= z <= INT_MAX -> to_int z = z.
Proof.
  unfold to_int, wrap_signed, INT_MAX. intros H.
  change (2 ^ (32 - 1)) with 2147483648. change (2 ^ 32) with 4294967296.
  rewrite Z.mod_small by lia. lia.
Qed.

Lemma to_llong_small z : LLONG_MIN <= z <= LLONG_MAX -> to_llong z = z.
Proof.
  unfold to_llong, wrap_signed, LLONG_MIN, LLONG_MAX. intros H.
  change (2 ^ (64 - 1)) with 9223372036854775808.
  change (2 ^ 64) with 18446744073709551616.
  rewrite Z.mod_small by lia. lia.
Qed.

(** ** The scan *)

(** One iteration of the loop extends the invariant by the event visited. *)
Lemma scan_body_inv s seen ev b :
  scan_inv s seen b ->
  scan_inv s (seen ++ [ev]) (scan_body s (Z.of_nat (length seen)) ev b).
Proof.
  intros Hinv. unfold scan_body.
  destruct (is_masked s (dev ev)) eqn:Hm.
  - destruct Hinv as [[Hi Hall] | (bev & H0 & Hl & Hd & Hs & Hu & Hbest)].
    + left. split; [done |]. intros e [He | He]%elem_of_app; [by apply Hall |].
      apply list_elem_of_singleton in He. by subst.
    + right. exists bev. repeat split; try done.
      * by apply lookup_app_l_Some.
      * intros e [He | He]%elem_of_app Hue; [by apply Hbest |].
        apply list_elem_of_singleton in He. subst. congruence.
  - destruct ((best_idx b =? -1)
              || (device_value (dev ev) >? device_value (best_dev b))
              || (bool_decide (dev ev = best_dev b) && (seq ev <? best_seq b)))
      eqn:Hc.
    + right. exists ev. cbn. repeat split; try done; [lia | |].
      * rewrite Nat2Z.id. by apply list_lookup_middle.
      * intros e [He | He]%elem_of_app Hue.
        2:{ apply list_elem_of_singleton in He. subst. right. split; [done | lia]. }
        destruct Hinv as [[Hi Hall] | (bev & H0 & Hl & Hd & Hs & Hu & Hbest)].
        { rewrite Hall in Hue; done. }
        specialize (Hbest e He Hue).
        apply orb_prop in Hc as [Hc | Hc]; [apply orb_prop in Hc as [Hc | Hc] |].
        -- lia.
        -- rewrite Hd in Hc. unfold served_before in *.
           destruct Hbest as [Hlt | [He1 He2]]; [left; lia |].
           left. rewrite <- He1. lia.
        -- apply andb_prop in Hc as [Hc1 Hc2].
           apply bool_decide_eq_true in Hc1. rewrite Hd in Hc1. rewrite Hs in Hc2.
           unfold served_before in *. rewrite Hc1.
           destruct Hbest as [Hlt | [He1 He2]]; [by left |].
           right. split; [done | lia].
    + destruct Hinv as [[Hi Hall] | (bev & H0 & Hl & Hd & Hs & Hu & Hbest)].
      { rewrite Hi in Hc. cbn in Hc. done. }
      right. exists bev. repeat split; try done.
      * by apply lookup_app_l_Some.
      * intros e [He | He]%elem_of_app Hue; [by apply Hbest |].
        apply list_elem_of_singleton in He. subst e.
        apply orb_false_elim in Hc as [Hc Hc3].
        apply orb_false_elim in Hc as [Hc1 Hc2].
        rewrite Hd in Hc2, Hc3. rewrite Hs in Hc3.
        unfold served_before.
        destruct (decide (dev ev = dev bev)) as [Heq | Hne].
        -- right. split; [done |].
           rewrite bool_decide_eq_true_2 in Hc3 by done. cbn in Hc3. lia.
        -- left. assert (device_value (dev ev) <> device_value (dev bev)).
           { destruct (dev ev), (dev bev); cbn; congruence. }
           lia.
Qed.

(** The loop establishes the invariant on the part of the vector it has
    visited, which is all of it when the size is an [int]. *)
Lemma scan_loop_inv s n rest : forall seen b,
  scan_inv s seen b ->
  exists k, (k <= length rest)%nat
    /\ scan_inv s (seen ++ take k rest) (scan_loop s n (Z.of_nat (length seen)) rest b)
    /\ (Z.of_nat (length (seen ++ rest)) <= n -> k = length rest).
Proof.
  induction rest as [| ev tl IH]; intros seen b Hinv.
  - exists 0%nat. cbn. rewrite app_nil_r. done.
  - cbn [scan_loop]. destruct (Z.of_nat (length seen) <? n) eqn:Hlt.
    + apply (scan_body_inv s seen ev) in Hinv.
      destruct (IH (seen ++ [ev]) _ Hinv) as (k & Hk & Hres & Hfull).
      rewrite length_app in Hres. cbn [length] in Hres.
      replace (Z.of_nat (length seen + 1)) with (Z.of_nat (length seen) + 1) in Hres by lia.
      exists (S k). split; [cbn; lia |]. split.
      * cbn [take]. by rewrite <- app_assoc in Hres.
      * intros Hn. rewrite <- app_assoc in Hfull. cbn. f_equal. by apply Hfull.
    + exists 0%nat. split; [lia |]. split.
      * cbn. by rewrite app_nil_r.
      * rewrite length_app. cbn [length]. lia.
Qed.

Lemma scan_inv_init s : scan_inv s [] best_init.
Proof. left. split; [done |]. intros e He. by apply elem_of_nil in He. Qed.

(** The result of a scan never points outside the vector, and the event it
    points to is unmasked, whatever the size of the vector. *)
Lemma scan_in_range s :
  best_idx (scan s) = -1
  \/ exists ev, 0 <= best_idx (scan s)
       /\ pending s !! Z.to_nat (best_idx (scan s)) = Some ev
       /\ is_masked s (dev ev) = false.
Proof.
  destruct (scan_loop_inv s (to_int (Z.of_nat (length (pending s)))) (pending s)
              [] best_init (scan_inv_init s)) as (k & Hk & Hinv & _).
  cbn in Hinv. fold (scan s) in Hinv.
  destruct Hinv as [[Hi _] | (ev & H0 & Hl & _ & _ & Hu & _)]; [by left |].
  right. exists ev. repeat split; try done.
  apply lookup_take_Some in Hl. tauto.
Qed.

(** When the size is an [int] the scan has seen every pending event. *)
Lemma scan_complete s : fits_int (pending s) -> scan_inv s (pending s) (scan s).
Proof.
  intros Hfit.
  destruct (scan_loop_inv s (to_int (Z.of_nat (length (pending s)))) (pending s)
              [] best_init (scan_inv_init s)) as (k & Hk & Hinv & Hfull).
  cbn in Hinv, Hfull. fold (scan s) in Hinv.
  rewrite to_int_small in Hfull by (unfold fits_int in Hfit; lia).
  rewrite Hfull in Hinv by lia. by rewrite firstn_all in Hinv.
Qed.

(** ** Selection *)

(** [is_masked] reads the flag of the device it is asked about. *)
Lemma is_masked_flag s d :
  is_masked s d =
  match d with
  | KEYBOARD => masked_keyboard s
  | MOUSE => masked_mouse s
  | PRINTER => masked_printer s
  end.
Proof. unfold is_masked. destruct d; cbn; by destruct (masked_keyboard s), (masked_mouse s). Qed.

Lemma no_masking_is_masked s d : no_masking s -> is_masked s d = false.
Proof. intros (Hk & Hm & Hp). rewrite is_masked_flag. by destruct d. Qed.

(** The pass never reads outside the vector. *)
Lemma select_pass_total s : exists r, select_pass s = Some r.
Proof.
  unfold select_pass.
  destruct (negb (running s) && bool_decide (pending s = [])); [eauto |].
  destruct (scan_in_range s) as [Hi | (ev & H0 & Hl & _)].
  - rewrite Hi. cbn. eauto.
  - destruct (best_idx (scan s) =? -1); [eauto |]. rewrite Hl. eauto.
Qed.

(** What a pass that extracts an event did. *)
Lemma select_pass_extracts s ev s' tr :
  select_pass s = Some (IsrStart ev, s', tr) ->
  let i := best_idx (scan s) in
  0 <= i
  /\ pending s !! Z.to_nat i = Some ev
  /\ s' = set_pending (delete (Z.to_nat i) (pending s)) s
  /\ tr = [ReadPending; ReadMask; ErasePending i ev; Unlock].
Proof.
  unfold select_pass. intros H.
  destruct (negb (running s) && bool_decide (pending s = [])); [done |].
  destruct (best_idx (scan s) =? -1) eqn:Hi; [done |].
  destruct (pending s !! Z.to_nat (best_idx (scan s))) as [ev' |] eqn:Hl; [| done].
  injection H as -> <- <-. cbn.
  destruct (scan_in_range s) as [Hneg | (ev2 & H0 & _)]; [lia | done].
Qed.

(** A pass that finds everything masked changes nothing. *)
Lemma select_pass_all_masked s :
  pending s <> [] ->
  (forall e, e ∈ pending s -> is_masked s (dev e) = true) ->
  select_pass s =
  Some (TimedWait, s, [ReadPending; ReadMask] ++ ignored_lines s ++ [Unlock; WaitFor 200]).
Proof.
  intros Hne Hall. unfold select_pass.
  rewrite (bool_decide_eq_false_2 _ Hne), andb_false_r.
  destruct (scan_in_range s) as [Hi | (ev & H0 & Hl & Hu)].
  - by rewrite Hi.
  - apply list_elem_of_lookup_2 in Hl. rewrite Hall in Hu; done.
Qed.

(** With an eligible event pending, the pass extracts the preferred one. *)
Lemma select_pass_eligible s e :
  fits_int (pending s) -> e ∈ pending s -> is_masked s (dev e) = false ->
  exists ev,
    select_pass s =
      Some (IsrStart ev,
            set_pending (delete (Z.to_nat (best_idx (scan s))) (pending s)) s,
            [ReadPending; ReadMask; ErasePending (best_idx (scan s)) ev; Unlock])
    /\ pending s !! Z.to_nat (best_idx (scan s)) = Some ev
    /\ is_masked s (dev ev) = false
    /\ forall e', e' ∈ pending s -> is_masked s (dev e') = false -> served_before ev e'.
Proof.
  intros Hfit He Hu.
  destruct (scan_complete s Hfit) as [[_ Hall] | (ev & H0 & Hl & _ & _ & Hev & Hbest)].
  { rewrite Hall in Hu; done. }
  exists ev. repeat split; try done.
  unfold select_pass.
  assert (pending s <> []) as Hne by (intros Heq; rewrite Heq in He; by apply elem_of_nil in He).
  rewrite (bool_decide_eq_false_2 _ Hne), andb_false_r.
  destruct (best_idx (scan s) =? -1) eqn:Hi; [lia |]. by rewrite Hl.
Qed.

Lemma drain_sorted_perm n : forall s,
  length (pending s) = n -> fits_int (pending s) -> no_masking s ->
  drain n s ≡ₚ pending s /\ StronglySorted served_before (drain n s).
Proof.
  induction n as [| n IH]; intros s Hlen Hfit Hnm.
  - apply nil_length_inv in Hlen. rewrite Hlen. cbn. split; [done | constructor].
  - assert (exists e0, e0 ∈ pending s) as [e0 He0].
    { destruct (pending s) as [| e0 p0]; [done |]. exists e0. apply list_elem_of_here. }
    destruct (select_pass_eligible s e0) as (ev & Hsel & Hl & _ & Hbest);
      [done | done | by apply no_masking_is_masked |].
    cbn [drain]. rewrite Hsel.
    set (s' := set_pending _ s).
    assert (pending s ≡ₚ ev :: pending s') as Hperm by (by apply delete_Permutation).
    pose proof (Permutation_length Hperm) as HL. cbn [length] in HL.
    destruct (IH s') as [Hp' Hs']; [lia | unfold fits_int in *; lia | done |].
    split.
    + rewrite Hperm. by constructor.
    + constructor; [done |]. apply Forall_forall. intros x Hx.
      apply Hbest; [| by apply no_masking_is_masked].
      rewrite Hperm. apply list_elem_of_further. by rewrite <- Hp'.
Qed.

(** C1: the event the scan selects is unmasked, no unmasked pending event
    has a higher device priority, and among the unmasked events of its own
    device it has the least sequence number; with nothing masked, selecting
    and removing until the vector is empty hands out all pending events by
    device priority descending and, within a device, by ascending sequence
    number. *)
Theorem scan_selects_highest_priority_oldest (s : State) :
  fits_int (pending s) ->
  (forall ev s' tr, select_pass s = Some (IsrStart ev, s', tr) ->
     pending s !! Z.to_nat (best_idx (scan s)) = Some ev
     /\ is_masked s (dev ev) = false
     /\ forall e, e ∈ pending s -> is_masked s (dev e) = false ->
          device_value (dev e) < device_value (dev ev)
          \/ (dev ev = dev e /\ seq ev <= seq e))
  /\ (no_masking s ->
      drain (length (pending s)) s ≡ₚ pending s
      /\ StronglySorted
           (fun a b => device_value (dev b) < device_value (dev a)
                       \/ (dev a = dev b /\ seq a <= seq b))
           (drain (length (pending s)) s)).
Proof.
  intros Hfit. split.
  - intros ev s' tr Hsel.
    apply select_pass_extracts in Hsel as (H0 & Hl & _ & _).
    destruct (scan_complete s Hfit) as [[Hneg _] | (ev' & _ & Hl' & _ & _ & Hev & Hbest)]; [lia |].
    rewrite Hl in Hl'. injection Hl' as <-.
    repeat split; try done.
  - intros Hnm. by apply drain_sorted_perm.
Qed.

Lemma scan_selects_highest_priority_oldest_witness :
  let s := mkState [mkEvent PRINTER 1 10; mkEvent KEYBOARD 3 30; mkEvent MOUSE 4 35;
                    mkEvent KEYBOARD 2 20]
                   false false false 4 true None in
  select_pass s = Some (IsrStart (mkEvent KEYBOARD 2 20),
                        set_pending [mkEvent PRINTER 1 10; mkEvent KEYBOARD 3 30;
                                     mkEvent MOUSE 4 35] s,
                        [ReadPending; ReadMask; ErasePending 3 (mkEvent KEYBOARD 2 20); Unlock])
  /\ drain 4 s = [mkEvent KEYBOARD 2 20; mkEvent KEYBOARD 3 30; mkEvent MOUSE 4 35;
                  mkEvent PRINTER 1 10]
  /\ StronglySorted served_before (drain 4 s).
Proof.
  intros s. split; [reflexivity |]. split; [reflexivity |].
  refine (proj2 (proj2 (scan_selects_highest_priority_oldest s _) _)).
  - unfold fits_int, INT_MAX. cbn. lia.
  - repeat split.
Defined.

(** C2: an event is handed to the ISR only if its device is unmasked, so no
    event of a masked device is ever selected, whatever its priority; and as
    long as some unmasked event is pending the pass does select one. *)
Theorem masked_device_never_selected (s : State) :
  (forall ev s' tr, select_pass s = Some (IsrStart ev, s', tr) ->
     ev ∈ pending s
     /\ is_masked s (dev ev) = false
     /\ forall D, is_masked s D = true -> dev ev <> D)
  /\ (fits_int (pending s) ->
      forall e, e ∈ pending s -> is_masked s (dev e) = false ->
      exists ev s' tr, select_pass s = Some (IsrStart ev, s', tr)).
Proof.
  split.
  - intros ev s' tr Hsel.
    apply select_pass_extracts in Hsel as (H0 & Hl & _ & _).
    destruct (scan_in_range s) as [Hneg | (ev' & _ & Hl' & Hu)]; [lia |].
    rewrite Hl in Hl'. injection Hl' as <-.
    split; [by eapply list_elem_of_lookup_2 |]. split; [done |].
    intros D HD Heq. congruence.
  - intros Hfit e He Hu.
    destruct (select_pass_eligible s e Hfit He Hu) as (ev & Hsel & _). eauto.
Qed.

Lemma masked_device_never_selected_witness :
  let s := mkState [mkEvent KEYBOARD 1 10; mkEvent MOUSE 2 20]
                   true false false 2 true None in
  is_masked s KEYBOARD = true
  /\ exists ev s' tr, select_pass s = Some (IsrStart ev, s', tr) /\ dev ev = MOUSE.
Proof.
  intros s. split; [reflexivity |].
  destruct (proj2 (masked_device_never_selected s)) with (e := mkEvent MOUSE 2 20)
    as (ev & s' & tr & Hsel).
  - unfold fits_int, INT_MAX. cbn. lia.
  - cbn. apply list_elem_of_further, list_elem_of_here.
  - reflexivity.
  - exists ev, s', tr. split; [exact Hsel |].
    vm_compute in Hsel. by injection Hsel as <- _ _.
Defined.

(** The scenarios of the specification. *)
Example scenario_A :
  drain 2 (mkState [mkEvent PRINTER 1 0; mkEvent KEYBOARD 2 0] false false false 2 true None)
  = [mkEvent KEYBOARD 2 0; mkEvent PRINTER 1 0].
Proof. reflexivity. Qed.

Example scenario_B :
  select_pass (mkState [mkEvent KEYBOARD 1 0; mkEvent MOUSE 2 0] true false false 2 true None)
  = Some (IsrStart (mkEvent MOUSE 2 0),
          mkState [mkEvent KEYBOARD 1 0] true false false 2 true None,
          [ReadPending; ReadMask; ErasePending 1 (mkEvent MOUSE 2 0); Unlock]).
Proof. reflexivity. Qed.

Example scenario_C :
  drain 2 (mkState [mkEvent MOUSE 1 0; mkEvent MOUSE 2 0] false false false 2 true None)
  = [mkEvent MOUSE 1 0; mkEvent MOUSE 2 0].
Proof. reflexivity. Qed.

Example scenario_D :
  select_pass (mkState [mkEvent KEYBOARD 1 0; mkEvent MOUSE 2 0; mkEvent PRINTER 3 0]
                       true true true 3 true None)
  = Some (TimedWait,
          mkState [mkEvent KEYBOARD 1 0; mkEvent MOUSE 2 0; mkEvent PRINTER 3 0]
                  true true true 3 true None,
          [ReadPending; ReadMask;
           Cout "Keyboard Interrupt Ignored (Masked)";
           Cout "Mouse Interrupt Ignored (Masked)";
           Cout "Printer Interrupt Ignored (Masked)";
           Unlock; WaitFor 200]).
Proof. reflexivity. Qed.

(** ** How the steps change the globals *)

Lemma ignored_lines_only_print s :
  inserted (ignored_lines s) = []
  /\ erased (ignored_lines s) = []
  /\ serviced (ignored_lines s) = [].
Proof.
  unfold ignored_lines.
  induction (pending s) as [| ev p (IH1 & IH2 & IH3)]; [done |].
  cbn [flat_map]. unfold inserted, erased, serviced in *.
  rewrite !flat_map_app, IH1, IH2, IH3.
  by destruct (is_masked s (dev ev)).
Qed.

Lemma trace_readers_app tr1 tr2 :
  inserted (tr1 ++ tr2) = inserted tr1 ++ inserted tr2
  /\ erased (tr1 ++ tr2) = erased tr1 ++ erased tr2
  /\ serviced (tr1 ++ tr2) = serviced tr1 ++ serviced tr2
  /\ printed (tr1 ++ tr2) = printed tr1 ++ printed tr2.
Proof. unfold inserted, erased, serviced, printed. by rewrite !flat_map_app. Qed.

(** The three outcomes of the lock-holding part of an iteration. *)
Lemma select_pass_cases s c' s' tr :
  select_pass s = Some (c', s', tr) ->
  (c' = Stopped /\ s' = s /\ tr = [ReadPending; Unlock]
   /\ running s = false /\ pending s = [])
  \/ (c' = TimedWait /\ s' = s
      /\ tr = [ReadPending; ReadMask] ++ ignored_lines s ++ [Unlock; WaitFor 200]
      /\ best_idx (scan s) = -1)
  \/ (exists ev, c' = IsrStart ev
      /\ 0 <= best_idx (scan s)
      /\ pending s !! Z.to_nat (best_idx (scan s)) = Some ev
      /\ s' = set_pending (delete (Z.to_nat (best_idx (scan s))) (pending s)) s
      /\ tr = [ReadPending; ReadMask; ErasePending (best_idx (scan s)) ev; Unlock]).
Proof.
  intros H. pose proof H as H'. unfold select_pass in H.
  destruct (negb (running s) && bool_decide (pending s = [])) eqn:Hstop.
  - injection H as <- <- <-. left.
    apply andb_prop in Hstop as [Hr Hp].
    apply negb_true_iff in Hr. apply bool_decide_eq_true in Hp. done.
  - destruct (best_idx (scan s) =? -1) eqn:Hi.
    + injection H as <- <- <-. right; left. repeat split; try done. lia.
    + destruct (pending s !! Z.to_nat (best_idx (scan s))) as [ev |] eqn:Hl; [| done].
      injection H as <- <- <-. right; right. exists ev.
      apply select_pass_extracts in H'. cbn in H'. tauto.
Qed.

Local Ltac frame_same := repeat split; first [done | by left].

(** A controller step leaves the masks, the counter and the flag alone,
    pushes nothing, and either keeps the vector or erases one element. *)
Lemma controller_thread_frame now c s c' s' tr :
  controller_thread now c s = Some (c', s', tr) ->
  global_seq s' = global_seq s /\ running s' = running s
  /\ masked_keyboard s' = masked_keyboard s
  /\ masked_mouse s' = masked_mouse s
  /\ masked_printer s' = masked_printer s
  /\ inserted tr = []
  /\ (pending s' = pending s
      \/ exists i ev, pending s !! i = Some ev /\ pending s' = delete i (pending s)).
Proof.
  destruct c; cbn [controller_thread]; intros H.
  - destruct (running s) eqn:Hr; injection H as <- <- <-; frame_same.
  - destruct (negb (bool_decide (pending s = [])) || negb (running s)).
    2:{ injection H as <- <- <-. frame_same. }
    destruct (select_pass s) as [[[c1 s1] tr1] |] eqn:Hsel; [| done].
    injection H as <- <- <-.
    apply select_pass_cases in Hsel
      as [(_ & -> & -> & _) | [(_ & -> & -> & _) | (ev & _ & _ & Hl & -> & ->)]].
    + frame_same.
    + repeat split; try (first [done | by left]).
      destruct (ignored_lines_only_print s) as (Hi & _).
      change (inserted (ignored_lines s ++ [Unlock; WaitFor 200]) = []).
      destruct (trace_readers_app (ignored_lines s) [Unlock; WaitFor 200]) as (-> & _).
      by rewrite Hi.
    + repeat split; try done. right. eauto.
  - injection H as <- <- <-. frame_same.
  - injection H as <- <- <-. frame_same.
  - injection H as <- <- <-. frame_same.
  - injection H as <- <- <-. frame_same.
Qed.

(** The console thread never touches the vector or the counter. *)
Lemma user_input_thread_frame cmd s :
  pending (user_input_thread cmd s).1.1 = pending s
  /\ global_seq (user_input_thread cmd s).1.1 = global_seq s
  /\ inserted (user_input_thread cmd s).1.2 = []
  /\ erased (user_input_thread cmd s).1.2 = []
  /\ serviced (user_input_thread cmd s).1.2 = [].
Proof.
  unfold user_input_thread.
  destruct (String.eqb cmd ""); [done |].
  destruct (Console.extract cmd) as [token rest].
  destruct (Console.extract rest) as [which rest'].
  repeat match goal with
         | |- context [if ?b then _ else _] => destruct b
         end; done.
Qed.

Lemma StronglySorted_delete {A} (R : relation A) (l : list A) i :
  StronglySorted R l -> StronglySorted R (delete i l).
Proof.
  intros H. revert i. induction H as [| x l Hs IH Hall]; intros [| i]; cbn.
  - constructor.
  - constructor.
  - done.
  - constructor; [apply IH | by apply Forall_delete].
Qed.

Lemma StronglySorted_lt_NoDup (l : list Z) : StronglySorted Z.lt l -> NoDup l.
Proof.
  induction 1 as [| x l Hs IH Hall]; constructor; [| done].
  intros Hin. rewrite Forall_forall in Hall. specialize (Hall x Hin). lia.
Qed.

(** ** Sequence numbers *)

(** At [LLONG_MAX] the increment leaves the range of [long long]; reduced to
    64 bits the next sequence number is [LLONG_MIN]. *)
Example counter_leaves_range :
  (device_thread MOUSE 0 (mkState [] false false false LLONG_MAX true None)).2
  = [Lock; PushPending (mkEvent MOUSE LLONG_MIN 0); Unlock; NotifyOne].
Proof. reflexivity. Qed.

(** What a schedule of [length acts] steps does to the counter and to the
    sequence numbers, as long as the counter stays below [LLONG_MAX]. *)
Lemma run_sequence_numbers acts : forall c s c' s' tr,
  run acts c s = Some (c', s', tr) ->
  0 <= global_seq s ->
  global_seq s + Z.of_nat (length acts) <= LLONG_MAX ->
  StronglySorted Z.lt (seq <$> pending s) ->
  Forall (fun e => seq e <= global_seq s) (pending s) ->
  global_seq s <= global_seq s' <= global_seq s + Z.of_nat (length acts)
  /\ StronglySorted Z.lt (seq <$> inserted tr)
  /\ Forall (fun e => global_seq s < seq e <= global_seq s') (inserted tr)
  /\ StronglySorted Z.lt (seq <$> pending s')
  /\ Forall (fun e => seq e <= global_seq s') (pending s').
Proof.
  induction acts as [| a acts IH]; intros c s c' s' tr Hrun H0 Hmax Hsort Hle.
  - injection Hrun as <- <- <-. cbn. repeat split; try done; try lia; constructor.
  - cbn [run] in Hrun.
    destruct (sys_step a c s) as [[[c1 s1] tr1] |] eqn:Hstep; [| done].
    destruct (run acts c1 s1) as [[[c2 s2] tr2] |] eqn:Hrest; [| done].
    injection Hrun as <- <- <-.
    cbn [length] in Hmax.
    assert (global_seq s <= global_seq s1 <= global_seq s + 1
            /\ StronglySorted Z.lt (seq <$> inserted tr1)
            /\ Forall (fun e => global_seq s < seq e <= global_seq s1) (inserted tr1)
            /\ StronglySorted Z.lt (seq <$> pending s1)
            /\ Forall (fun e => seq e <= global_seq s1) (pending s1))
      as (Hg1 & Hs1 & Hi1 & Hp1 & Hl1).
    { destruct a as [now | d now | cmd |]; cbn in Hstep.
      - apply controller_thread_frame in Hstep as (Hg & _ & _ & _ & _ & -> & Hp).
        rewrite Hg. repeat split; try lia; try constructor.
        + destruct Hp as [-> | (i & ev & _ & ->)]; [done |].
          rewrite list_fmap_delete. by apply StronglySorted_delete.
        + destruct Hp as [-> | (i & ev & _ & ->)]; [done |]. by apply Forall_delete.
      - injection Hstep as <- <- <-. cbn.
        rewrite to_llong_small by (unfold LLONG_MIN; lia).
        repeat split; try lia.
        + repeat constructor.
        + repeat constructor; cbn; lia.
        + rewrite fmap_app. apply StronglySorted_app_2; [| done | repeat constructor].
          intros x1 x2 (e1 & -> & He1)%list_elem_of_fmap Hx2.
          apply list_elem_of_singleton in Hx2. subst x2. cbn.
          rewrite Forall_forall in Hle. specialize (Hle e1 He1). lia.
        + apply Forall_app. split; [| repeat constructor; cbn; lia].
          eapply Forall_impl; [exact Hle |]. cbn. intros; lia.
      - destruct (user_input_thread cmd s) as [[su tru] bu] eqn:Hu.
        injection Hstep as <- <- <-.
        destruct (user_input_thread_frame cmd s) as (Hp & Hg & Hi & _).
        rewrite Hu in Hp, Hg, Hi. cbn [fst snd] in Hp, Hg, Hi. rewrite Hp, Hg, Hi.
        repeat split; try done; try lia; constructor.
      - injection Hstep as <- <- <-. cbn.
        repeat split; try done; try lia; constructor. }
    destruct (IH _ _ _ _ _ Hrest) as (Hg2 & Hs2 & Hi2 & Hp2 & Hl2); [lia | lia | done | done |].
    destruct (trace_readers_app tr1 tr2) as (-> & _).
    repeat split; try done; try lia.
    + cbn [length]. lia.
    + rewrite fmap_app. apply StronglySorted_app_2; [| done | done].
      intros x1 x2 (e1 & -> & He1)%list_elem_of_fmap (e2 & -> & He2)%list_elem_of_fmap.
      rewrite Forall_forall in Hi1, Hi2.
      specialize (Hi1 e1 He1). specialize (Hi2 e2 He2). lia.
    + apply Forall_app. split.
      * eapply Forall_impl; [exact Hi1 |]. cbn. intros; lia.
      * eapply Forall_impl; [exact Hi2 |]. cbn. intros; lia.
Qed.

(** C3: along any schedule from program start that is short enough for the
    64-bit counter not to reach [LLONG_MAX], every pushed event carries a
    sequence number strictly greater than all those assigned before it, and
    the sequence numbers of the pending events are strictly increasing in
    vector (insertion) order, hence pairwise distinct. *)
Theorem sequence_numbers_strictly_increase
    (acts : list Action) (f : option (list string)) (c : Ctrl) (s : State)
    (tr : list Effect) :
  Z.of_nat (length acts) <= LLONG_MAX ->
  run acts LoopHead (initial_state f) = Some (c, s, tr) ->
  StronglySorted Z.lt (seq <$> inserted tr)
  /\ StronglySorted Z.lt (seq <$> pending s)
  /\ NoDup (seq <$> pending s)
  /\ Forall (fun e => 0 < seq e <= global_seq s) (inserted tr)
  /\ forall d now, global_seq s < LLONG_MAX ->
       Forall (fun e => seq e < global_seq (device_thread d now s).1) (inserted tr)
       /\ (device_thread d now s).2 =
            [Lock; PushPending (mkEvent d (global_seq s + 1) now); Unlock; NotifyOne].
Proof.
  intros Hlen Hrun.
  destruct (run_sequence_numbers _ _ _ _ _ _ Hrun) as (Hg & Hs & Hi & Hp & Hl);
    [done | cbn; lia | constructor | constructor |].
  cbn in Hg, Hi.
  split; [done |]. split; [done |]. split; [| split; [| intros d now Hlt; split]].
  - by apply StronglySorted_lt_NoDup.
  - eapply Forall_impl; [exact Hi |]. cbn. intros; lia.
  - cbn. rewrite to_llong_small by (unfold LLONG_MIN; lia).
    eapply Forall_impl; [exact Hi |]. cbn. intros; lia.
  - cbn. by rewrite to_llong_small by (unfold LLONG_MIN; lia).
Qed.

Lemma sequence_numbers_strictly_increase_witness :
  let acts := [ADevice PRINTER 10; ADevice KEYBOARD 20; ACtrl "t0"; ACtrl "t1";
               ADevice MOUSE 30; ACtrl "t2"; ADevice KEYBOARD 40] in
  exists c s tr,
    run acts LoopHead (initial_state None) = Some (c, s, tr)
    /\ seq <$> inserted tr = [1; 2; 3; 4]
    /\ seq <$> pending s = [1; 3; 4]
    /\ StronglySorted Z.lt (seq <$> pending s).
Proof.
  intros acts.
  destruct (run acts LoopHead (initial_state None)) as [[[c s] tr] |] eqn:Hrun;
    [| vm_compute in Hrun; discriminate Hrun].
  exists c, s, tr. split; [reflexivity |].
  pose proof (sequence_numbers_strictly_increase acts None c s tr) as Hthm.
  vm_compute in Hrun. injection Hrun as <- <- <-.
  split; [reflexivity |]. split; [reflexivity |].
  apply Hthm; [unfold LLONG_MAX; cbn; lia | reflexivity].
Defined.

(** ** Locking discipline *)

Lemma lock_discipline_ignored_lines s held tl :
  lock_discipline held (ignored_lines s ++ tl) = lock_discipline held tl.
Proof.
  unfold ignored_lines. induction (pending s) as [| ev p IH]; [done |].
  cbn [flat_map]. rewrite <- app_assoc.
  by destruct (is_masked s (dev ev)).
Qed.

(** Every step of the controller takes the lock before it touches the
    vector or the masks, and gives it back. *)
Lemma controller_thread_lock_discipline now c s c' s' tr :
  controller_thread now c s = Some (c', s', tr) -> lock_discipline false tr = true.
Proof.
  destruct c; cbn [controller_thread]; intros H.
  - by destruct (running s); injection H as <- <- <-.
  - destruct (negb (bool_decide (pending s = [])) || negb (running s)).
    2:{ by injection H as <- <- <-. }
    destruct (select_pass s) as [[[c1 s1] tr1] |] eqn:Hsel; [| done].
    injection H as <- <- <-.
    apply select_pass_cases in Hsel
      as [(_ & _ & -> & _) | [(_ & _ & -> & _) | (ev & _ & _ & _ & _ & ->)]]; [done | | done].
    change (lock_discipline true (ignored_lines s ++ [Unlock; WaitFor 200]) = true).
    by rewrite lock_discipline_ignored_lines.
  - by injection H as <- <- <-.
  - by injection H as <- <- <-.
  - by injection H as <- <- <-.
  - by injection H as <- <- <-.
Qed.

(** So do the device threads and the [status] command. *)
Lemma device_thread_lock_discipline d now s :
  lock_discipline false (device_thread d now s).2 = true.
Proof. done. Qed.

Lemma status_lock_discipline s :
  lock_discipline false (user_input_thread "status" s).1.2 = true.
Proof. done. Qed.

(** C4, evaluated on the command [mask k]: the console thread sets
    [masked_keyboard] without taking the lock under which the controller
    reads it, so the trace of the command breaks the locking discipline. *)
Theorem mask_command_writes_without_lock (s : State) :
  (user_input_thread "mask k" s).1.2
    = [WriteMask KEYBOARD true; Cout "Keyboard masked."; NotifyOne]
  /\ masked_keyboard (user_input_thread "mask k" s).1.1 = true
  /\ lock_discipline false (user_input_thread "mask k" s).1.2 = false
  /\ lock_discipline false (user_input_thread "unmask k" s).1.2 = false.
Proof. done. Qed.

(** ** Everything masked *)

Lemma printed_ignored_lines s :
  all_masked s ->
  printed (ignored_lines s)
  = (fun ev => device_name (dev ev) +:+ " Interrupt Ignored (Masked)") <$> pending s.
Proof.
  unfold all_masked, ignored_lines.
  induction (pending s) as [| ev p IH]; intros Hall; [done |].
  cbn [flat_map fmap list_fmap].
  destruct (trace_readers_app
              (if is_masked s (dev ev)
               then [Cout (device_name (dev ev) +:+ " Interrupt Ignored (Masked)")]
               else [])
              (flat_map (fun ev => if is_masked s (dev ev)
                                   then [Cout (device_name (dev ev) +:+ " Interrupt Ignored (Masked)")]
                                   else []) p)) as (_ & _ & _ & ->).
  rewrite Hall by apply list_elem_of_here.
  rewrite IH; [done |]. intros e He. apply Hall. by apply list_elem_of_further.
Qed.

(** The pass of the controller when all pending events are masked. *)
Lemma controller_thread_all_masked now s :
  pending s <> [] -> all_masked s ->
  controller_thread now Waiting s
  = Some (TimedWait, s,
          [Lock; ReadPending; ReadPending; ReadMask] ++ ignored_lines s
          ++ [Unlock; WaitFor 200]).
Proof.
  intros Hne Hall. cbn [controller_thread].
  rewrite (bool_decide_eq_false_2 _ Hne). cbn [negb orb].
  by rewrite select_pass_all_masked.
Qed.

(** However long the controller runs on its own, it stays idle. *)
Lemma ctrl_run_all_masked nows : forall c s,
  pending s <> [] -> all_masked s -> idle c ->
  exists c' tr, run (ACtrl <$> nows) c s = Some (c', s, tr)
    /\ idle c' /\ serviced tr = [] /\ erased tr = [].
Proof.
  induction nows as [| now nows IH]; intros c s Hne Hall Hidle.
  - exists c, []. done.
  - assert (exists c1 tr1, controller_thread now c s = Some (c1, s, tr1)
              /\ idle c1 /\ serviced tr1 = [] /\ erased tr1 = [])
      as (c1 & tr1 & Hstep & Hidle1 & Hs1 & He1).
    { destruct c; try done; cbn [controller_thread].
      - destruct (running s); eauto 10.
      - fold (controller_thread now Waiting s). rewrite controller_thread_all_masked by done.
        eexists _, _. split; [done |]. split; [done |].
        destruct (ignored_lines_only_print s) as (_ & He & Hs).
        split.
        + change (serviced (ignored_lines s ++ [Unlock; WaitFor 200]) = []).
          destruct (trace_readers_app (ignored_lines s) [Unlock; WaitFor 200])
            as (_ & _ & -> & _). by rewrite Hs.
        + change (erased (ignored_lines s ++ [Unlock; WaitFor 200]) = []).
          destruct (trace_readers_app (ignored_lines s) [Unlock; WaitFor 200])
            as (_ & -> & _). by rewrite He.
      - eauto 10.
      - eauto 10. }
    destruct (IH c1 s Hne Hall Hidle1) as (c2 & tr2 & Hrun & Hidle2 & Hs2 & He2).
    exists c2, (tr1 ++ tr2). cbn [fmap list_fmap run sys_step].
    rewrite Hstep. fold (fmap (M:=list) ACtrl nows). rewrite Hrun.
    split; [done |]. split; [done |].
    destruct (trace_readers_app tr1 tr2) as (_ & -> & -> & _).
    by rewrite Hs1, Hs2, He1, He2.
Qed.

(** C5: with a non-empty vector whose events are all masked, the pass
    selects nothing and leaves every global as it was; it prints one
    "Ignored (Masked)" line per pending event, waits on the condition
    variable for at most 200 ms and goes back to the loop head, from where
    (while [running]) the pass starts again; and no number of controller
    steps services or erases an event as long as the masks stay as they
    are. *)
Theorem all_masked_selects_nothing (s : State) :
  pending s <> [] -> all_masked s ->
  (forall now, exists tr,
      controller_thread now Waiting s = Some (TimedWait, s, tr)
      /\ printed tr
         = (fun ev => device_name (dev ev) +:+ " Interrupt Ignored (Masked)") <$> pending s
      /\ erased tr = [] /\ serviced tr = []
      /\ last tr = Some (WaitFor 200))
  /\ (forall now, controller_thread now TimedWait s = Some (LoopHead, s, [Lock; Unlock]))
  /\ (running s = true -> forall now, controller_thread now LoopHead s = Some (Waiting, s, []))
  /\ (forall nows c, idle c ->
        exists c' tr, run (ACtrl <$> nows) c s = Some (c', s, tr)
          /\ idle c' /\ serviced tr = [] /\ erased tr = []).
Proof.
  intros Hne Hall. split; [| split; [done | split]].
  - intros now. eexists. split; [by apply controller_thread_all_masked |].
    destruct (ignored_lines_only_print s) as (_ & He & Hs).
    destruct (trace_readers_app (ignored_lines s) [Unlock; WaitFor 200])
      as (_ & He' & Hs' & Hp').
    repeat split.
    + match goal with
      | |- _ = ?r => change (printed (ignored_lines s ++ [Unlock; WaitFor 200]) = r)
      end.
      rewrite Hp', printed_ignored_lines by done. cbn. by rewrite app_nil_r.
    + change (erased (ignored_lines s ++ [Unlock; WaitFor 200]) = []).
      by rewrite He', He.
    + change (serviced (ignored_lines s ++ [Unlock; WaitFor 200]) = []).
      by rewrite Hs', Hs.
    + rewrite !app_assoc. change [Unlock; WaitFor 200] with ([Unlock] ++ [WaitFor 200]).
      rewrite app_assoc. apply last_snoc.
  - intros Hr now. cbn. by rewrite Hr.
  - intros nows c Hidle. by apply ctrl_run_all_masked.
Qed.

Lemma all_masked_selects_nothing_witness :
  let s := mkState [mkEvent KEYBOARD 1 10; mkEvent MOUSE 2 20; mkEvent PRINTER 3 30]
                   true true true 3 true None in
  controller_thread "t" Waiting s
  = Some (TimedWait, s,
          [Lock; ReadPending; ReadPending; ReadMask;
           Cout "Keyboard Interrupt Ignored (Masked)";
           Cout "Mouse Interrupt Ignored (Masked)";
           Cout "Printer Interrupt Ignored (Masked)";
           Unlock; WaitFor 200])
  /\ exists c' tr, run (ACtrl <$> ["t1"; "t2"; "t3"; "t4"; "t5"; "t6"; "t7"]) LoopHead s
                   = Some (c', s, tr)
       /\ serviced tr = [].
Proof.
  intros s. split; [reflexivity |].
  assert (pending s <> []) as Hne by done.
  assert (all_masked s) as Hall.
  { intros e He. rewrite is_masked_flag. by destruct (dev e). }
  destruct (proj2 (proj2 (proj2 (all_masked_selects_nothing s Hne Hall)))
              ["t1"; "t2"; "t3"; "t4"; "t5"; "t6"; "t7"] LoopHead I)
    as (c' & tr & Hrun & _ & Hs & _).
  by exists c', tr.
Defined.

(** ** Leaving the loop *)

(** The controller never reads outside the vector: every step is defined. *)
Lemma controller_thread_total now c s : exists c' s' tr, controller_thread now c s = Some (c', s', tr).
Proof.
  destruct c; cbn [controller_thread]; eauto.
  - destruct (running s); eauto.
  - destruct (negb (bool_decide (pending s = [])) || negb (running s)); eauto.
    destruct (select_pass_total s) as ([[c' s'] tr] & ->). eauto.
Qed.

(** C6 as stated fails: the controller also stops at the loop head with
    events still pending. *)
Lemma controller_stops_with_pending_events :
  ~ (forall now c s s' tr,
       c <> Stopped ->
       controller_thread now c s = Some (Stopped, s', tr) ->
       running s = false /\ pending s = []).
Proof.
  intros Hclaim.
  destruct (Hclaim "t" LoopHead
              (mkState [mkEvent PRINTER 1 10] false false false 1 false None)
              (mkState [mkEvent PRINTER 1 10] false false false 1 false None)
              []) as [_ Hp]; [done | reflexivity | discriminate Hp].
Qed.

(** C6, amended: every step of the controller is defined, so the loop has
    no failure exit; it reaches [Stopped] exactly when it reads the shutdown
    flag as cleared, at the loop head whatever is pending, or after its wait
    with an empty vector, and it changes no global when it does. *)
Theorem controller_stops_only_on_shutdown (now : string) (c : Ctrl) (s : State) :
  c <> Stopped ->
  (exists c' s' tr, controller_thread now c s = Some (c', s', tr))
  /\ ((exists s' tr, controller_thread now c s = Some (Stopped, s', tr))
      <-> running s = false /\ (c = LoopHead \/ (c = Waiting /\ pending s = [])))
  /\ (forall s' tr, controller_thread now c s = Some (Stopped, s', tr) -> s' = s).
Proof.
  intros Hc. split; [apply controller_thread_total |]. split; [split |].
  - intros (s' & tr & H). destruct c; cbn [controller_thread] in H; try done.
    + destruct (running s) eqn:Hr; [done |]. split; [done | by left].
    + destruct (negb (bool_decide (pending s = [])) || negb (running s)); [| done].
      destruct (select_pass s) as [[[c1 s1] tr1] |] eqn:Hsel; [| done].
      injection H as -> <- <-.
      apply select_pass_cases in Hsel
        as [(_ & _ & _ & Hr & Hp) | [(? & _) | (ev & ? & _)]]; [| done | done].
      split; [done |]. right. done.
  - intros [Hr [-> | [-> Hp]]]; cbn [controller_thread].
    + rewrite Hr. eauto.
    + rewrite Hr, orb_true_r. unfold select_pass. rewrite Hr, Hp. cbn. eauto.
  - intros s' tr H. destruct c; cbn [controller_thread] in H; try done.
    + destruct (running s); [discriminate H |]. by injection H as <- <-.
    + destruct (negb (bool_decide (pending s = [])) || negb (running s)); [| done].
      destruct (select_pass s) as [[[c1 s1] tr1] |] eqn:Hsel; [| done].
      injection H as -> <- <-.
      by apply select_pass_cases in Hsel
        as [(_ & -> & _) | [(? & _) | (ev & ? & _)]].
Qed.

Lemma controller_stops_only_on_shutdown_witness :
  let s := mkState [] true false false 7 false None in
  exists s' tr, controller_thread "t" Waiting s = Some (Stopped, s', tr) /\ s' = s.
Proof.
  intros s.
  assert (Waiting <> Stopped) as Hc by done.
  destruct (controller_stops_only_on_shutdown "t" Waiting s Hc) as (_ & Hiff & Hsame).
  destruct (proj2 Hiff) as (s' & tr & Hstep).
  - split; [reflexivity |]. right. split; reflexivity.
  - exists s', tr. split; [exact Hstep | exact (Hsame s' tr Hstep)].
Defined.

(** ** Conservation of events *)

Lemma controller_thread_conserves now c s c' s' tr :
  controller_thread now c s = Some (c', s', tr) ->
  inserted tr = []
  /\ in_flight c ++ pending s ≡ₚ serviced tr ++ in_flight c' ++ pending s'
  /\ in_flight c ++ erased tr = serviced tr ++ in_flight c'.
Proof.
  destruct c; cbn [controller_thread]; intros H.
  - by destruct (running s); injection H as <- <- <-.
  - destruct (negb (bool_decide (pending s = [])) || negb (running s)).
    2:{ by injection H as <- <- <-. }
    destruct (select_pass s) as [[[c1 s1] tr1] |] eqn:Hsel; [| done].
    injection H as <- <- <-.
    apply select_pass_cases in Hsel
      as [(-> & -> & -> & _) | [(-> & -> & -> & _) | (ev & -> & _ & Hl & -> & ->)]].
    + done.
    + destruct (ignored_lines_only_print s) as (Hi & He & Hs).
      destruct (trace_readers_app (ignored_lines s) [Unlock; WaitFor 200])
        as (Hi' & He' & Hs' & _).
      change (inserted (ignored_lines s ++ [Unlock; WaitFor 200]) = []
              /\ pending s ≡ₚ serviced (ignored_lines s ++ [Unlock; WaitFor 200]) ++ pending s
              /\ erased (ignored_lines s ++ [Unlock; WaitFor 200])
                 = serviced (ignored_lines s ++ [Unlock; WaitFor 200]) ++ []).
      by rewrite Hi', He', Hs', Hi, He, Hs.
    + split; [done |]. split; [| done]. cbn. by apply delete_Permutation.
  - by injection H as <- <- <-.
  - by injection H as <- <- <-.
  - by injection H as <- <- <-.
  - by injection H as <- <- <-.
Qed.

Lemma sys_step_conserves a c s c' s' tr :
  sys_step a c s = Some (c', s', tr) ->
  inserted tr ++ in_flight c ++ pending s ≡ₚ serviced tr ++ in_flight c' ++ pending s'
  /\ in_flight c ++ erased tr = serviced tr ++ in_flight c'.
Proof.
  destruct a as [now | d now | cmd |]; cbn [sys_step]; intros H.
  - apply controller_thread_conserves in H as (-> & Hp & He). done.
  - injection H as <- <- <-. cbn. rewrite app_nil_r. split; [| done].
    rewrite (Permutation_app_comm (pending s) [_]). cbn.
    apply Permutation_middle.
  - destruct (user_input_thread cmd s) as [[su tru] bu] eqn:Hu.
    injection H as <- <- <-.
    destruct (user_input_thread_frame cmd s) as (Hp & _ & Hi & He & Hs).
    rewrite Hu in Hp, Hi, He, Hs. cbn [fst snd] in Hp, Hi, He, Hs.
    by rewrite Hp, Hi, He, Hs, app_nil_r.
  - injection H as <- <- <-. cbn. by rewrite app_nil_r.
Qed.

(** No schedule makes the program read outside the vector. *)
Lemma run_total acts : forall c s, exists c' s' tr, run acts c s = Some (c', s', tr).
Proof.
  induction acts as [| a acts IH]; intros c s; [cbn; eauto |].
  assert (exists c1 s1 tr1, sys_step a c s = Some (c1, s1, tr1)) as (c1 & s1 & tr1 & Hstep).
  { destruct a as [now | d now | cmd |]; cbn [sys_step].
    - apply controller_thread_total.
    - destruct (device_thread d now s); eauto.
    - destruct (user_input_thread cmd s) as [[? ?] ?]; eauto.
    - destruct (main_shutdown s); eauto. }
  destruct (IH c1 s1) as (c2 & s2 & tr2 & Hrun).
  cbn [run]. rewrite Hstep, Hrun. eauto.
Qed.

Lemma run_conserves acts : forall c s c' s' tr,
  run acts c s = Some (c', s', tr) ->
  inserted tr ++ in_flight c ++ pending s ≡ₚ serviced tr ++ in_flight c' ++ pending s'
  /\ in_flight c ++ erased tr = serviced tr ++ in_flight c'.
Proof.
  induction acts as [| a acts IH]; intros c s c' s' tr Hrun.
  - injection Hrun as <- <- <-. cbn. by rewrite app_nil_r.
  - cbn [run] in Hrun.
    destruct (sys_step a c s) as [[[c1 s1] tr1] |] eqn:Hstep; [| done].
    destruct (run acts c1 s1) as [[[c2 s2] tr2] |] eqn:Hrest; [| done].
    injection Hrun as <- <- <-.
    apply sys_step_conserves in Hstep as (Hp1 & He1).
    apply IH in Hrest as (Hp2 & He2).
    destruct (trace_readers_app tr1 tr2) as (-> & -> & -> & _).
    split.
    + rewrite <- !app_assoc.
      rewrite (Permutation_app_swap_app (inserted tr1) (inserted tr2)).
      rewrite Hp1.
      rewrite (Permutation_app_swap_app (inserted tr2) (serviced tr1)).
      by rewrite Hp2.
    + by rewrite app_assoc, He1, <- app_assoc, He2, app_assoc.
Qed.

(** C7: for every schedule from program start, the events pushed are, as a
    multiset, the events whose service was started, the event (if any) just
    extracted and about to be serviced, and the events still pending; the
    events erased from the vector are exactly those, in the order of their
    service; so once the controller has stopped, pushed = serviced + pending.
    While the counter has not wrapped no event is serviced twice. *)
Theorem events_conserved (acts : list Action) (f : option (list string)) :
  exists c s tr,
    run acts LoopHead (initial_state f) = Some (c, s, tr)
    /\ inserted tr ≡ₚ serviced tr ++ in_flight c ++ pending s
    /\ erased tr = serviced tr ++ in_flight c
    /\ (c = Stopped -> inserted tr ≡ₚ serviced tr ++ pending s)
    /\ (Z.of_nat (length acts) <= LLONG_MAX -> NoDup (serviced tr ++ pending s)).
Proof.
  destruct (run_total acts LoopHead (initial_state f)) as (c & s & tr & Hrun).
  exists c, s, tr. split; [done |].
  destruct (run_conserves _ _ _ _ _ _ Hrun) as (Hp & He).
  cbn in Hp, He. rewrite app_nil_r in Hp.
  split; [done |]. split; [done |]. split.
  - intros ->. done.
  - intros Hlen.
    destruct (run_sequence_numbers _ _ _ _ _ _ Hrun) as (_ & Hs & _);
      [done | cbn; lia | constructor | constructor |].
    apply StronglySorted_lt_NoDup, NoDup_fmap_1 in Hs.
    rewrite Hp in Hs. rewrite (Permutation_app_comm (in_flight c)), app_assoc in Hs.
    by apply NoDup_app in Hs as (Hs & _).
Qed.

Lemma events_conserved_witness :
  exists s tr,
    run [ADevice PRINTER 10; ADevice KEYBOARD 20; ACtrl "t0"; ACtrl "t1"; ACtrl "t2";
         ADevice MOUSE 30; ACtrl "t3"; AUser "exit"; ACtrl "t4"]
        LoopHead (initial_state (Some []))
    = Some (Stopped, s, tr)
    /\ inserted tr = [mkEvent PRINTER 1 10; mkEvent KEYBOARD 2 20; mkEvent MOUSE 3 30]
    /\ serviced tr = [mkEvent KEYBOARD 2 20]
    /\ pending s = [mkEvent PRINTER 1 10; mkEvent MOUSE 3 30]
    /\ inserted tr ≡ₚ serviced tr ++ pending s.
Proof.
  destruct (events_conserved
              [ADevice PRINTER 10; ADevice KEYBOARD 20; ACtrl "t0"; ACtrl "t1"; ACtrl "t2";
               ADevice MOUSE 30; ACtrl "t3"; AUser "exit"; ACtrl "t4"] (Some []))
    as (c & s & tr & Hrun & _ & _ & Hstop & _).
  vm_compute in Hrun. injection Hrun as <- <- <-.
  eexists _, _. split; [reflexivity |].
  split; [reflexivity |]. split; [reflexivity |]. split; [reflexivity |].
  exact (Hstop eq_refl).
Defined.

(** ** Logging failures *)

Lemma scan_loop_log_irrelevant f s n rest : forall i b,
  scan_loop (set_log_file f s) n i rest b = scan_loop s n i rest b.
Proof.
  induction rest as [| ev tl IH]; intros i b; [done |].
  cbn [scan_loop]. destruct (i <? n); [| done].
  rewrite IH. done.
Qed.

Lemma select_pass_log_irrelevant f s :
  select_pass (set_log_file f s)
  = match select_pass s with
    | Some (c', s', tr) => Some (c', set_log_file f s', tr)
    | None => None
    end.
Proof.
  unfold select_pass, scan. rewrite scan_loop_log_irrelevant.
  change (pending (set_log_file f s)) with (pending s).
  change (running (set_log_file f s)) with (running s).
  change (ignored_lines (set_log_file f s)) with (ignored_lines s).
  destruct (negb (running s) && bool_decide (pending s = [])); [done |].
  match goal with |- context [best_idx ?b =? -1] => destruct (best_idx b =? -1) end; [done |].
  match goal with |- context [pending s !! ?i] => destruct (pending s !! i) end; done.
Qed.

(** C8: [append_log] returns whether or not the file can be opened, and
    leaves an unopenable file as it is; every step of the controller is
    defined, and what it does next, what it does to the vector, the masks,
    the counter and the flag, and what it emits do not depend on the log
    file; pushing an event and handling a console line are total and do
    not look at the log file either. *)
Theorem logging_failure_is_swallowed :
  (forall line, append_log line None = None)
  /\ (forall line ls, append_log line (Some ls) = Some (ls ++ [line]))
  /\ (forall now c s, exists c' s' tr,
        controller_thread now c s = Some (c', s', tr)
        /\ forall f, exists f',
             controller_thread now c (set_log_file f s) = Some (c', set_log_file f' s', tr))
  /\ (forall d now s f,
        device_thread d now (set_log_file f s)
        = (set_log_file f (device_thread d now s).1, (device_thread d now s).2))
  /\ (forall cmd s f,
        user_input_thread cmd (set_log_file f s)
        = (set_log_file f (user_input_thread cmd s).1.1,
           (user_input_thread cmd s).1.2, (user_input_thread cmd s).2)).
Proof.
  split; [done |]. split; [done |]. split; [| split].
  - intros now c s.
    destruct (controller_thread_total now c s) as (c' & s' & tr & Hstep).
    exists c', s', tr. split; [done |]. intros f.
    destruct c; cbn [controller_thread] in *.
    + change (running (set_log_file f s)) with (running s).
      destruct (running s); injection Hstep as <- <- <-; by exists f.
    + change (running (set_log_file f s)) with (running s).
      change (pending (set_log_file f s)) with (pending s).
      destruct (negb (bool_decide (pending s = [])) || negb (running s)).
      * rewrite select_pass_log_irrelevant.
        destruct (select_pass s) as [[[c1 s1] tr1] |]; [| done].
        injection Hstep as <- <- <-. by exists f.
      * injection Hstep as <- <- <-. by exists f.
    + injection Hstep as <- <- <-. by exists f.
    + injection Hstep as <- <- <-. eexists. reflexivity.
    + injection Hstep as <- <- <-. eexists. reflexivity.
    + injection Hstep as <- <- <-. by exists f.
  - done.
  - intros cmd s f. unfold user_input_thread.
    destruct (String.eqb cmd ""); [done |].
    destruct (Console.extract cmd) as [token rest].
    destruct (Console.extract rest) as [which rest'].
    repeat match goal with
           | |- context [if String.eqb ?a ?b then _ else _] => destruct (String.eqb a b)
           end; done.
Qed.

(** ** Shutdown *)

(** A schedule in which the shutdown is requested while the controller is
    servicing: the Printer event is pending and unmasked when the flag is
    cleared, and the controller stops without another pass. *)
Example shutdown_during_service_run :
  run [ADevice PRINTER 10; ADevice KEYBOARD 20; ACtrl "t0"; ACtrl "t1"; ACtrl "t2";
       AUser "exit"; ACtrl "t3"; ACtrl "t4"]
      LoopHead (initial_state None)
  = Some (Stopped,
          mkState [mkEvent PRINTER 1 10] false false false 2 false None,
          [Lock; PushPending (mkEvent PRINTER 1 10); Unlock; NotifyOne;
           Lock; PushPending (mkEvent KEYBOARD 2 20); Unlock; NotifyOne;
           Lock; ReadPending; ReadPending; ReadMask;
           ErasePending 1 (mkEvent KEYBOARD 2 20); Unlock;
           IsrBegin (mkEvent KEYBOARD 2 20);
           Cout "Keyboard Interrupt Triggered → Handling ISR → Started at t2";
           AppendLog "START | Keyboard | seq=2 | t2";
           SleepFor 300;
           Cout "Exiting..."; NotifyAll;
           Cout "Keyboard ISR Completed at t3";
           AppendLog "END   | Keyboard | seq=2 | t3";
           IsrEnd (mkEvent KEYBOARD 2 20)]).
Proof. vm_compute. reflexivity. Qed.

(** C9 as stated fails: with the flag cleared and an unmasked event
    pending, a controller that is at the loop head (where it arrives after a
    service or a timed wait) stops without selecting anything. *)
Lemma shutdown_at_loop_head_discards_pending :
  ~ (forall c s nows s' tr,
       c <> Stopped -> running s = false -> fits_int (pending s) ->
       (exists e, e ∈ pending s /\ is_masked s (dev e) = false) ->
       run (ACtrl <$> nows) c s = Some (Stopped, s', tr) ->
       serviced tr <> []).
Proof.
  intros Hclaim.
  apply (Hclaim LoopHead
           (mkState [mkEvent PRINTER 1 10] false false false 2 false None)
           ["t4"]
           (mkState [mkEvent PRINTER 1 10] false false false 2 false None)
           []).
  - done.
  - reflexivity.
  - unfold fits_int, INT_MAX. cbn. lia.
  - exists (mkEvent PRINTER 1 10). split; [apply list_elem_of_here | reflexivity].
  - reflexivity.
  - reflexivity.
Qed.

(** With the flag cleared while the controller waits and every pending
    event masked, the pass services nothing and the controller stops at the
    loop head. *)
Lemma shutdown_while_waiting_all_masked s t1 t2 t3 :
  running s = false -> pending s <> [] -> all_masked s ->
  exists tr, run [ACtrl t1; ACtrl t2; ACtrl t3] Waiting s = Some (Stopped, s, tr)
    /\ serviced tr = [] /\ erased tr = [].
Proof.
  intros Hr Hne Hall. eexists. split.
  - cbn [run sys_step]. rewrite controller_thread_all_masked by done.
    cbn [controller_thread]. rewrite Hr. reflexivity.
  - destruct (ignored_lines_only_print s) as (_ & He & Hs).
    destruct (trace_readers_app (ignored_lines s) [Unlock; WaitFor 200])
      as (_ & He' & Hs' & _).
    destruct (trace_readers_app
                ([Lock; ReadPending; ReadPending; ReadMask] ++ ignored_lines s
                 ++ [Unlock; WaitFor 200])
                ([Lock; Unlock] ++ [] ++ [])) as (_ & -> & -> & _).
    destruct (trace_readers_app [Lock; ReadPending; ReadPending; ReadMask]
                (ignored_lines s ++ [Unlock; WaitFor 200])) as (_ & -> & -> & _).
    by rewrite He', Hs', He, Hs.
Qed.

(** C9, amended: if the flag is cleared once the controller is past the
    test at the loop head (it is in its wait, or about to enter it) and an
    unmasked event is pending, the controller does one selection pass,
    services the preferred event, comes back to the loop head and stops
    there, the other events still pending; a controller that is at the loop
    head when the flag is cleared stops at once. *)
Theorem shutdown_while_waiting_serves_one_more
    (s : State) (e : InterruptEvent) (t1 t2 t3 t4 : string) :
  running s = false -> fits_int (pending s) ->
  e ∈ pending s -> is_masked s (dev e) = false ->
  (exists ev s' tr,
      run [ACtrl t1; ACtrl t2; ACtrl t3; ACtrl t4] Waiting s = Some (Stopped, s', tr)
      /\ serviced tr = [ev] /\ erased tr = [ev]
      /\ is_masked s (dev ev) = false
      /\ (forall e', e' ∈ pending s -> is_masked s (dev e') = false -> served_before ev e')
      /\ pending s ≡ₚ ev :: pending s')
  /\ controller_thread t1 LoopHead s = Some (Stopped, s, []).
Proof.
  intros Hr Hfit He Hu. split; [| cbn; by rewrite Hr].
  destruct (select_pass_eligible s e Hfit He Hu) as (ev & Hsel & Hl & Hev & Hbest).
  eexists ev, _, _. split; [| split; [| split; [| split; [exact Hev | split; [exact Hbest |]]]]].
  - cbn [run sys_step controller_thread].
    rewrite Hr, orb_true_r, Hsel. cbn. rewrite Hr. reflexivity.
  - reflexivity.
  - reflexivity.
  - cbn. by apply delete_Permutation.
Qed.

Lemma shutdown_while_waiting_serves_one_more_witness :
  let s := mkState [mkEvent PRINTER 1 10; mkEvent MOUSE 2 20] false false false 2 false None in
  exists s' tr,
    run [ACtrl "t1"; ACtrl "t2"; ACtrl "t3"; ACtrl "t4"] Waiting s = Some (Stopped, s', tr)
    /\ serviced tr = [mkEvent MOUSE 2 20]
    /\ pending s' = [mkEvent PRINTER 1 10].
Proof.
  intros s.
  destruct (shutdown_while_waiting_serves_one_more s (mkEvent PRINTER 1 10) "t1" "t2" "t3" "t4")
    as ((ev & s' & tr & Hrun & _) & _).
  - reflexivity.
  - unfold fits_int, INT_MAX. cbn. lia.
  - apply list_elem_of_here.
  - reflexivity.
  - vm_compute in Hrun. injection Hrun as <- <-.
    eexists _, _. split; [reflexivity |]. split; reflexivity.
Defined.

(** ** Console commands *)

(** C10: a [mask] or [unmask] line whose device word is none of [k], [m],
    [p] leaves every global (the three flags and the vector among them) as
    it was, prints the usage line and nothing else, and still calls
    [cv.notify_one]; a controller woken by it with nothing pending finds
    its predicate false and waits again. *)
Theorem unknown_device_only_notifies
    (cmd token rest which rest' : string) (s : State) :
  Console.extract cmd = (token, rest) ->
  token = "mask" \/ token = "unmask" ->
  Console.extract rest = (which, rest') ->
  which <> "k" -> which <> "m" -> which <> "p" ->
  user_input_thread cmd s = (s, [Cout "Unknown device. Use k/m/p."; NotifyOne], true)
  /\ (pending s = [] -> running s = true ->
      forall now, controller_thread now Waiting (user_input_thread cmd s).1.1
                  = Some (Waiting, s, [Lock; ReadPending; Unlock])).
Proof.
  intros Hcmd Htok Hrest Hk Hm Hp.
  assert (user_input_thread cmd s
          = (s, [Cout "Unknown device. Use k/m/p."; NotifyOne], true)) as Heq.
  { unfold user_input_thread.
    destruct (String.eqb_spec cmd "") as [-> | _].
    { cbn in Hcmd. injection Hcmd as <- _. by destruct Htok. }
    rewrite Hcmd, Hrest.
    apply String.eqb_neq in Hk, Hm, Hp.
    destruct Htok as [-> | ->]; cbn; by rewrite Hk, Hm, Hp. }
  split; [done |]. intros Hp0 Hr now. rewrite Heq. cbn. by rewrite Hp0, Hr.
Qed.

Lemma unknown_device_only_notifies_witness :
  let s := mkState [mkEvent MOUSE 1 10] false true false 1 true None in
  user_input_thread "mask x" s = (s, [Cout "Unknown device. Use k/m/p."; NotifyOne], true)
  /\ user_input_thread "  unmask" s = (s, [Cout "Unknown device. Use k/m/p."; NotifyOne], true).
Proof.
  intros s. split.
  - apply (unknown_device_only_notifies "mask x" "mask" " x" "x" ""); try done. by left.
  - apply (unknown_device_only_notifies "  unmask" "unmask" "" "" ""); try done. by right.
Defined.

(** * Further properties *)

(** ** Selection depends on device, sequence number and masks only *)

Lemma served_before_antisym a b :
  served_before a b -> served_before b a -> dev a = dev b /\ seq a = seq b.
Proof.
  unfold served_before. intros [H1 | [H1 H1']] [H2 | [H2 H2']]; try lia.
  - rewrite H2 in H1. lia.
  - rewrite H1 in H2. lia.
  - split; [done | lia].
Qed.

(** X1: the order of the pending vector does not matter to the selection:
    when no two pending events share device and sequence number, a pass on
    any rearrangement of the vector extracts the same event and leaves the
    same events pending. *)
Theorem selection_ignores_vector_order
    (s : State) (p2 : list InterruptEvent) (ev : InterruptEvent) (s' : State)
    (tr : list Effect) :
  fits_int (pending s) -> distinct_keys (pending s) -> pending s ≡ₚ p2 ->
  select_pass s = Some (IsrStart ev, s', tr) ->
  exists s2' tr2,
    select_pass (set_pending p2 s) = Some (IsrStart ev, s2', tr2)
    /\ pending s2' ≡ₚ pending s'.
Proof.
  intros Hfit Hkeys Hperm Hsel.
  pose proof Hsel as Hx. apply select_pass_extracts in Hx as (_ & Hl & Hs' & _).
  destruct (scan_complete s Hfit) as [[Hneg _] | (ev0 & _ & Hl0 & _ & _ & Hu & Hbest)].
  { destruct (scan_in_range s) as [Hi | (? & ? & Hl1 & _)]; [| lia].
    apply select_pass_cases in Hsel as [(? & _) | [(? & _) | (? & _ & ? & _)]]; try done. lia. }
  rewrite Hl in Hl0. injection Hl0 as <-.
  assert (ev ∈ pending s) as Hin by (by eapply list_elem_of_lookup_2).
  destruct (select_pass_eligible (set_pending p2 s) ev) as (ev2 & Hsel2 & Hl2 & Hu2 & Hbest2).
  - unfold fits_int in *. cbn. by rewrite <- Hperm.
  - cbn. by rewrite <- Hperm.
  - exact Hu.
  - cbn in Hl2, Hbest2.
    assert (ev2 ∈ pending s) as Hin2.
    { rewrite Hperm. by eapply list_elem_of_lookup_2. }
    assert (ev2 = ev) as ->.
    { destruct (served_before_antisym ev2 ev) as [Hd Hq].
      - apply Hbest2; [by rewrite <- Hperm | exact Hu].
      - apply Hbest; [done | exact Hu2].
      - by apply Hkeys. }
    eexists _, _. split; [exact Hsel2 |].
    rewrite Hs'. cbn.
    apply (Permutation_cons_inv (a := ev)).
    rewrite <- (delete_Permutation _ _ _ Hl2), <- (delete_Permutation _ _ _ Hl).
    by symmetry.
Qed.

Lemma selection_ignores_vector_order_witness :
  let s := mkState [mkEvent PRINTER 1 10; mkEvent KEYBOARD 3 30; mkEvent KEYBOARD 2 20]
                   false false false 3 true None in
  exists s2' tr2,
    select_pass (set_pending [mkEvent KEYBOARD 2 20; mkEvent PRINTER 1 10;
                              mkEvent KEYBOARD 3 30] s)
    = Some (IsrStart (mkEvent KEYBOARD 2 20), s2', tr2).
Proof.
  intros s.
  destruct (selection_ignores_vector_order s
              [mkEvent KEYBOARD 2 20; mkEvent PRINTER 1 10; mkEvent KEYBOARD 3 30]
              (mkEvent KEYBOARD 2 20)
              (set_pending [mkEvent PRINTER 1 10; mkEvent KEYBOARD 3 30] s)
              [ReadPending; ReadMask; ErasePending 2 (mkEvent KEYBOARD 2 20); Unlock])
    as (s2' & tr2 & Hsel & _).
  - unfold fits_int, INT_MAX. cbn. lia.
  - intros e e' He He' Hd Hq. cbn in He, He'.
    repeat (apply elem_of_cons in He as [-> | He]);
      repeat (apply elem_of_cons in He' as [-> | He']);
      try done; try (by apply elem_of_nil in He); by apply elem_of_nil in He'.
  - exact (Permutation_app_comm [mkEvent PRINTER 1 10; mkEvent KEYBOARD 3 30]
                                [mkEvent KEYBOARD 2 20]).
  - reflexivity.
  - by exists s2', tr2.
Defined.

Lemma scan_loop_same_keys (f : InterruptEvent -> InterruptEvent) s n rest :
  (forall e, dev (f e) = dev e /\ seq (f e) = seq e) ->
  forall i b, scan_loop s n i (f <$> rest) b = scan_loop s n i rest b.
Proof.
  intros Hf. induction rest as [| ev tl IH]; intros i b; [done |].
  cbn [fmap list_fmap scan_loop]. destruct (i <? n); [| done].
  fold (fmap (M:=list) f tl). rewrite IH. f_equal.
  unfold scan_body. destruct (Hf ev) as [-> ->]. done.
Qed.

Lemma scan_loop_pending_irrelevant p s n rest : forall i b,
  scan_loop (set_pending p s) n i rest b = scan_loop s n i rest b.
Proof.
  induction rest as [| ev tl IH]; intros i b; [done |].
  cbn [scan_loop]. destruct (i <? n); [| done]. by rewrite IH.
Qed.

(** X2: the timestamp of an event is never looked at by the arbiter:
    replacing the pending events by events of the same devices and sequence
    numbers leaves the three locals of the scan, the selected index among
    them, as they were. *)
Theorem selection_ignores_timestamps
    (s : State) (f : InterruptEvent -> InterruptEvent) :
  (forall e, dev (f e) = dev e /\ seq (f e) = seq e) ->
  scan (set_pending (f <$> pending s) s) = scan s.
Proof.
  intros Hf. unfold scan. cbn [pending set_pending].
  rewrite length_fmap, scan_loop_pending_irrelevant.
  by apply scan_loop_same_keys.
Qed.

Lemma selection_ignores_timestamps_witness :
  let s := mkState [mkEvent MOUSE 1 10; mkEvent KEYBOARD 2 20] false false false 2 true None in
  best_idx (scan (set_pending [mkEvent MOUSE 1 0; mkEvent KEYBOARD 2 0] s)) = 1.
Proof.
  intros s.
  change [mkEvent MOUSE 1 0; mkEvent KEYBOARD 2 0]
    with ((fun e => mkEvent (dev e) (seq e) 0) <$> pending s).
  rewrite (selection_ignores_timestamps s (fun e => mkEvent (dev e) (seq e) 0));
    [reflexivity | done].
Defined.

(** ** Masked events are kept *)

Lemma filter_delete_other {A} (P : A -> Prop) `{!forall x, Decision (P x)}
    (l : list A) i x :
  l !! i = Some x -> ~ P x -> filter P (delete i l) = filter P l.
Proof.
  revert i. induction l as [| y l IH]; intros [| i] Hl Hx; try done.
  - injection Hl as ->. change (delete 0%nat (x :: l)) with l.
    by rewrite filter_cons_False.
  - change (delete (S i) (y :: l)) with (y :: delete i l).
    rewrite !filter_cons. by rewrite (IH i).
Qed.

(** The event a controller step erases is one it found unmasked. *)
Lemma controller_thread_erases_unmasked now c s c' s' tr :
  controller_thread now c s = Some (c', s', tr) ->
  pending s' = pending s
  \/ exists i ev, pending s !! i = Some ev /\ is_masked s (dev ev) = false
       /\ pending s' = delete i (pending s).
Proof.
  destruct c; cbn [controller_thread]; intros H.
  - destruct (running s); injection H as <- <- <-; by left.
  - destruct (negb (bool_decide (pending s = [])) || negb (running s)).
    2:{ injection H as <- <- <-. by left. }
    destruct (select_pass s) as [[[c1 s1] tr1] |] eqn:Hsel; [| done].
    injection H as <- <- <-.
    apply select_pass_cases in Hsel
      as [(_ & -> & _) | [(_ & -> & _) | (ev & _ & H0 & Hl & -> & _)]];
      [by left | by left |].
    right. exists (Z.to_nat (best_idx (scan s))), ev. split; [done |]. split; [| done].
    destruct (scan_in_range s) as [Hneg | (ev' & _ & Hl' & Hu)]; [lia |].
    rewrite Hl in Hl'. by injection Hl' as <-.
  - injection H as <- <- <-. by left.
  - injection H as <- <- <-. by left.
  - injection H as <- <- <-. by left.
  - injection H as <- <- <-. by left.
Qed.

Lemma is_masked_same_flags s1 s2 d :
  masked_keyboard s1 = masked_keyboard s2 -> masked_mouse s1 = masked_mouse s2 ->
  masked_printer s1 = masked_printer s2 -> is_masked s1 d = is_masked s2 d.
Proof. unfold is_masked. by intros -> -> ->. Qed.

Lemma sys_step_keeps_masked (M : Device -> bool) a c s c' s' tr :
  is_user a = false ->
  (forall d, is_masked s d = M d) ->
  sys_step a c s = Some (c', s', tr) ->
  (forall d, is_masked s' d = M d)
  /\ filter (fun e => M (dev e) = true) (pending s')
     = filter (fun e => M (dev e) = true) (pending s)
       ++ filter (fun e => M (dev e) = true) (inserted tr).
Proof.
  intros Hu HM Hstep. destruct a as [now | d now | cmd |]; [| | done |]; cbn in Hstep.
  - pose proof (controller_thread_frame _ _ _ _ _ _ Hstep) as (_ & _ & Hk & Hm & Hp & -> & _).
    split; [intros d; rewrite <- HM; by apply is_masked_same_flags |].
    rewrite filter_nil, app_nil_r.
    apply controller_thread_erases_unmasked in Hstep as [-> | (i & ev & Hl & Hev & ->)]; [done |].
    apply (filter_delete_other _ _ _ _ Hl). rewrite <- HM, Hev. done.
  - injection Hstep as <- <- <-. split; [done |]. cbn [pending set_pending].
    by rewrite filter_app.
  - injection Hstep as <- <- <-. split; [done |]. cbn. by rewrite app_nil_r.
Qed.

Lemma run_keeps_masked (M : Device -> bool) acts : forall c s c' s' tr,
  Forall (fun a => is_user a = false) acts ->
  (forall d, is_masked s d = M d) ->
  run acts c s = Some (c', s', tr) ->
  (forall d, is_masked s' d = M d)
  /\ filter (fun e => M (dev e) = true) (pending s')
     = filter (fun e => M (dev e) = true) (pending s)
       ++ filter (fun e => M (dev e) = true) (inserted tr).
Proof.
  induction acts as [| a acts IH]; intros c s c' s' tr Hacts HM Hrun.
  - injection Hrun as <- <- <-. split; [done |]. cbn. by rewrite app_nil_r.
  - cbn [run] in Hrun.
    destruct (sys_step a c s) as [[[c1 s1] tr1] |] eqn:Hstep; [| done].
    destruct (run acts c1 s1) as [[[c2 s2] tr2] |] eqn:Hrest; [| done].
    injection Hrun as <- <- <-.
    apply Forall_cons in Hacts as [Ha Hacts].
    destruct (sys_step_keeps_masked M _ _ _ _ _ _ Ha HM Hstep) as (HM1 & Hf1).
    destruct (IH _ _ _ _ _ Hacts HM1 Hrest) as (HM2 & Hf2).
    split; [done |].
    destruct (trace_readers_app tr1 tr2) as (-> & _).
    by rewrite Hf2, Hf1, filter_app, app_assoc.
Qed.

(** X3: masking keeps events, it does not drop them: along any schedule
    of controller, device and main steps (no console line, so the masks stay
    as they are) the masks do not change and the pending events of masked
    devices are those that were pending, in the same order, followed by
    those pushed since. *)
Theorem masked_events_stay_pending
    (acts : list Action) (c : Ctrl) (s : State) (c' : Ctrl) (s' : State)
    (tr : list Effect) :
  Forall (fun a => is_user a = false) acts ->
  run acts c s = Some (c', s', tr) ->
  (forall d, is_masked s' d = is_masked s d)
  /\ filter (fun e => is_masked s (dev e) = true) (pending s')
     = filter (fun e => is_masked s (dev e) = true) (pending s)
       ++ filter (fun e => is_masked s (dev e) = true) (inserted tr).
Proof.
  intros Hacts Hrun. by apply (run_keeps_masked (is_masked s) acts c s c' s' tr).
Qed.

Lemma masked_events_stay_pending_witness :
  let s := mkState [mkEvent KEYBOARD 1 10; mkEvent MOUSE 2 20] true false false 2 true None in
  let acts := [ACtrl "t0"; ACtrl "t1"; ADevice KEYBOARD 30; ACtrl "t2"; ACtrl "t3";
               ADevice PRINTER 40; ACtrl "t4"; ACtrl "t5"; ACtrl "t6"; ACtrl "t7"] in
  exists c' s' tr,
    run acts LoopHead s = Some (c', s', tr)
    /\ filter (fun e => is_masked s (dev e) = true) (pending s')
       = [mkEvent KEYBOARD 1 10; mkEvent KEYBOARD 3 30]
    /\ serviced tr = [mkEvent MOUSE 2 20; mkEvent PRINTER 4 40].
Proof.
  intros s acts.
  destruct (run acts LoopHead s) as [[[c' s'] tr] |] eqn:Hrun;
    [| vm_compute in Hrun; discriminate Hrun].
  assert (Forall (fun a => is_user a = false) acts) as Hacts by (repeat constructor).
  destruct (masked_events_stay_pending acts LoopHead s c' s' tr Hacts Hrun) as (_ & Hkeep).
  exists c', s', tr. split; [reflexivity |].
  vm_compute in Hrun. injection Hrun as <- <- <-.
  split; [| reflexivity]. rewrite Hkeep. reflexivity.
Defined.

(** ** The sequence counter counts the pushes *)

(** A step pushes nothing and keeps the counter, or pushes one event that
    carries the incremented counter. *)
Lemma sys_step_counter a c s c' s' tr :
  sys_step a c s = Some (c', s', tr) ->
  (inserted tr = [] /\ global_seq s' = global_seq s)
  \/ (exists ev, inserted tr = [ev] /\ seq ev = to_llong (global_seq s + 1)
        /\ global_seq s' = seq ev).
Proof.
  destruct a as [now | d now | cmd |]; cbn [sys_step]; intros H.
  - apply controller_thread_frame in H as (Hg & _ & _ & _ & _ & Hi & _). by left.
  - injection H as <- <- <-. right. eexists. done.
  - destruct (user_input_thread cmd s) as [[su tru] bu] eqn:Hu.
    injection H as <- <- <-.
    destruct (user_input_thread_frame cmd s) as (_ & Hg & Hi & _).
    rewrite Hu in Hg, Hi. by left.
  - injection H as <- <- <-. by left.
Qed.

Lemma run_counter acts : forall c s c' s' tr,
  run acts c s = Some (c', s', tr) ->
  0 <= global_seq s ->
  global_seq s + Z.of_nat (length acts) <= LLONG_MAX ->
  (length (inserted tr) <= length acts)%nat
  /\ global_seq s' = global_seq s + Z.of_nat (length (inserted tr))
  /\ forall k ev, inserted tr !! k = Some ev -> seq ev = global_seq s + Z.of_nat k + 1.
Proof.
  induction acts as [| a acts IH]; intros c s c' s' tr Hrun H0 Hmax.
  - injection Hrun as <- <- <-. cbn. split; [lia |]. split; [lia | done].
  - cbn [run] in Hrun.
    destruct (sys_step a c s) as [[[c1 s1] tr1] |] eqn:Hstep; [| done].
    destruct (run acts c1 s1) as [[[c2 s2] tr2] |] eqn:Hrest; [| done].
    injection Hrun as <- <- <-. cbn [length] in Hmax.
    destruct (trace_readers_app tr1 tr2) as (-> & _).
    apply sys_step_counter in Hstep
      as [(-> & Hg1) | (ev1 & -> & Hs1 & Hg1)].
    + destruct (IH _ _ _ _ _ Hrest) as (Hlen & Hg2 & Hk); [lia | lia |].
      rewrite Hg1 in Hg2, Hk. cbn [app length]. split; [lia |]. done.
    + rewrite to_llong_small in Hs1 by (unfold LLONG_MIN; lia).
      destruct (IH _ _ _ _ _ Hrest) as (Hlen & Hg2 & Hk); [lia | lia |].
      rewrite Hg1, Hs1 in Hg2, Hk. cbn [app length]. split; [lia |]. split; [lia |].
      intros [| k] ev Hl; cbn in Hl.
      * injection Hl as <-. lia.
      * rewrite (Hk k ev Hl). lia.
Qed.

(** X5: sequence numbers are assigned without gaps: along any schedule
    from program start short enough for the counter not to leave its range,
    the k-th event pushed (counting from 0) has sequence number k + 1, and
    [global_seq] is the number of events pushed so far. *)
Theorem sequence_numbers_count_pushes
    (acts : list Action) (f : option (list string)) (c : Ctrl) (s : State)
    (tr : list Effect) :
  Z.of_nat (length acts) <= LLONG_MAX ->
  run acts LoopHead (initial_state f) = Some (c, s, tr) ->
  global_seq s = Z.of_nat (length (inserted tr))
  /\ forall k ev, inserted tr !! k = Some ev -> seq ev = Z.of_nat k + 1.
Proof.
  intros Hlen Hrun.
  destruct (run_counter _ _ _ _ _ _ Hrun) as (_ & Hg & Hk); [done | cbn; lia |].
  cbn in Hg, Hk. split; [lia |]. intros k ev Hl. rewrite (Hk k ev Hl). lia.
Qed.

Lemma sequence_numbers_count_pushes_witness :
  let acts := [ADevice MOUSE 5; ACtrl "t0"; ACtrl "t1"; ADevice PRINTER 6; AUser "mask p";
               ADevice KEYBOARD 7] in
  exists c s tr,
    run acts LoopHead (initial_state None) = Some (c, s, tr)
    /\ global_seq s = 3
    /\ inserted tr = [mkEvent MOUSE 1 5; mkEvent PRINTER 2 6; mkEvent KEYBOARD 3 7].
Proof.
  intros acts.
  destruct (run acts LoopHead (initial_state None)) as [[[c s] tr] |] eqn:Hrun;
    [| vm_compute in Hrun; discriminate Hrun].
  assert (Z.of_nat (length acts) <= LLONG_MAX) as Hlen by (unfold LLONG_MAX; cbn; lia).
  destruct (sequence_numbers_count_pushes acts None c s tr Hlen Hrun) as (Hg & _).
  exists c, s, tr. split; [reflexivity |].
  vm_compute in Hrun. injection Hrun as <- <- <-.
  split; [exact Hg | reflexivity].
Defined.

(** ** Shutdown is irrevocable and ends the controller *)

Lemma sys_step_running a c s c' s' tr :
  sys_step a c s = Some (c', s', tr) ->
  (running s = false -> running s' = false)
  /\ (a = AMain -> running s' = false).
Proof.
  destruct a as [now | d now | cmd |]; cbn [sys_step]; intros H.
  - apply controller_thread_frame in H as (_ & Hr & _). rewrite Hr. done.
  - injection H as <- <- <-. done.
  - destruct (user_input_thread cmd s) as [[su tru] bu] eqn:Hu.
    injection H as <- <- <-. split; [| done]. intros Hr.
    unfold user_input_thread in Hu.
    destruct (String.eqb cmd ""); [by injection Hu as <- _ _ |].
    destruct (Console.extract cmd) as [token rest].
    destruct (Console.extract rest) as [which rest'].
    repeat match type of Hu with
           | context [if String.eqb ?a ?b then _ else _] => destruct (String.eqb a b)
           end; by injection Hu as <- _ _.
  - injection H as <- <- <-. done.
Qed.

(** X7: no step of any thread sets [running] back to true: along any
    schedule, once the flag is false it stays false, and after a step of
    [main]'s shutdown it is false. *)
Theorem shutdown_is_irrevocable
    (acts : list Action) (c : Ctrl) (s : State) (c' : Ctrl) (s' : State)
    (tr : list Effect) :
  run acts c s = Some (c', s', tr) ->
  running s = false \/ AMain ∈ acts ->
  running s' = false.
Proof.
  revert c s c' s' tr.
  induction acts as [| a acts IH]; intros c s c' s' tr Hrun Hor.
  - injection Hrun as <- <- <-. destruct Hor as [Hr | Hin]; [done |].
    by apply elem_of_nil in Hin.
  - cbn [run] in Hrun.
    destruct (sys_step a c s) as [[[c1 s1] tr1] |] eqn:Hstep; [| done].
    destruct (run acts c1 s1) as [[[c2 s2] tr2] |] eqn:Hrest; [| done].
    injection Hrun as <- <- <-.
    apply sys_step_running in Hstep as (Hkeep & Hmain).
    apply (IH _ _ _ _ _ Hrest).
    destruct Hor as [Hr | [Heq | Hin]%elem_of_cons];
      [left; by apply Hkeep | left; by apply Hmain | by right].
Qed.

Lemma shutdown_is_irrevocable_witness :
  exists c' s' tr,
    run [ADevice MOUSE 5; AMain; ADevice KEYBOARD 6; AUser "unmask k"; ACtrl "t"]
        Waiting (initial_state None) = Some (c', s', tr)
    /\ running s' = false.
Proof.
  destruct (run [ADevice MOUSE 5; AMain; ADevice KEYBOARD 6; AUser "unmask k"; ACtrl "t"]
                Waiting (initial_state None)) as [[[c' s'] tr] |] eqn:Hrun;
    [| vm_compute in Hrun; discriminate Hrun].
  exists c', s', tr. split; [reflexivity |].
  apply (shutdown_is_irrevocable _ _ _ _ _ _ Hrun).
  right. apply list_elem_of_further, list_elem_of_here.
Defined.

(** What a controller step does to the two measures when [running] is
    false. *)
Lemma controller_thread_towards_exit now c s c' s' tr :
  running s = false ->
  controller_thread now c s = Some (c', s', tr) ->
  (exit_bound c' <= exit_bound c - 1)%nat
  /\ (length (serviced tr) + services_left c' <= services_left c)%nat.
Proof.
  intros Hr. destruct c; cbn [controller_thread]; intros H.
  - rewrite Hr in H. injection H as <- <- <-. cbn. lia.
  - rewrite Hr, orb_true_r in H.
    destruct (select_pass s) as [[[c1 s1] tr1] |] eqn:Hsel; [| done].
    injection H as <- <- <-.
    apply select_pass_cases in Hsel
      as [(-> & _ & -> & _) | [(-> & _ & -> & _) | (ev & -> & _ & _ & _ & ->)]];
      [cbn; lia | | cbn; lia].
    destruct (ignored_lines_only_print s) as (_ & _ & Hs).
    match goal with
    | |- context [serviced ?l] =>
        change (serviced l) with (serviced (ignored_lines s ++ [Unlock; WaitFor 200]))
    end.
    destruct (trace_readers_app (ignored_lines s) [Unlock; WaitFor 200])
      as (_ & _ & -> & _).
    rewrite Hs. cbn. lia.
  - injection H as <- <- <-. cbn. lia.
  - injection H as <- <- <-. cbn. lia.
  - injection H as <- <- <-. cbn. lia.
  - injection H as <- <- <-. cbn. lia.
Qed.

Lemma run_towards_exit acts : forall c s c' s' tr,
  running s = false ->
  run acts c s = Some (c', s', tr) ->
  (exit_bound c' <= exit_bound c - ctrl_steps acts)%nat
  /\ (length (serviced tr) + services_left c' <= services_left c)%nat.
Proof.
  induction acts as [| a acts IH]; intros c s c' s' tr Hr Hrun.
  - injection Hrun as <- <- <-. cbn. lia.
  - cbn [run] in Hrun.
    destruct (sys_step a c s) as [[[c1 s1] tr1] |] eqn:Hstep; [| done].
    destruct (run acts c1 s1) as [[[c2 s2] tr2] |] eqn:Hrest; [| done].
    injection Hrun as <- <- <-.
    pose proof (proj1 (sys_step_running _ _ _ _ _ _ Hstep) Hr) as Hr1.
    destruct (IH _ _ _ _ _ Hr1 Hrest) as (He2 & Hs2).
    destruct (trace_readers_app tr1 tr2) as (_ & _ & -> & _). rewrite length_app.
    destruct a as [now | d now | cmd |]; cbn in Hstep.
    + destruct (controller_thread_towards_exit _ _ _ _ _ _ Hr Hstep) as (He1 & Hs1).
      unfold ctrl_steps in *. cbn [List.filter is_ctrl length]. lia.
    + injection Hstep as <- <- <-. unfold ctrl_steps in *. cbn in *. lia.
    + destruct (user_input_thread cmd s) as [[su tru] bu] eqn:Hu.
      injection Hstep as <- <- <-.
      destruct (user_input_thread_frame cmd s) as (_ & _ & _ & _ & Hsv).
      rewrite Hu in Hsv. cbn [fst snd] in Hsv. rewrite Hsv.
      unfold ctrl_steps in *. cbn in *. lia.
    + injection Hstep as <- <- <-. unfold ctrl_steps in *. cbn in *. lia.
Qed.

(** X6: once [running] is false the controller leaves its loop after at
    most four more of its own steps, whatever the other threads do in
    between and whatever is pending or masked, and it starts the service of
    at most one more event on the way. *)
Theorem controller_stops_after_shutdown
    (acts : list Action) (c : Ctrl) (s : State) (c' : Ctrl) (s' : State)
    (tr : list Effect) :
  running s = false ->
  (4 <= ctrl_steps acts)%nat ->
  run acts c s = Some (c', s', tr) ->
  c' = Stopped /\ (length (serviced tr) <= 1)%nat.
Proof.
  intros Hr Hsteps Hrun.
  destruct (run_towards_exit _ _ _ _ _ _ Hr Hrun) as (He & Hs).
  split.
  - assert (exit_bound c' = 0%nat) as H0 by (destruct c; cbn in He; lia).
    by destruct c'.
  - destruct c; cbn in Hs; lia.
Qed.

Lemma controller_stops_after_shutdown_witness :
  let s := mkState [mkEvent PRINTER 1 10; mkEvent KEYBOARD 2 20] false false false 2 false None in
  exists s' tr,
    run [ACtrl "t0"; ADevice MOUSE 30; ACtrl "t1"; ACtrl "t2"; ACtrl "t3"] Waiting s
    = Some (Stopped, s', tr)
    /\ serviced tr = [mkEvent KEYBOARD 2 20]
    /\ pending s' = [mkEvent PRINTER 1 10; mkEvent MOUSE 3 30].
Proof.
  intros s.
  destruct (run [ACtrl "t0"; ADevice MOUSE 30; ACtrl "t1"; ACtrl "t2"; ACtrl "t3"] Waiting s)
    as [[[c' s'] tr] |] eqn:Hrun; [| vm_compute in Hrun; discriminate Hrun].
  assert (running s = false) as Hr by reflexivity.
  assert (4 <= ctrl_steps [ACtrl "t0"; ADevice MOUSE 30; ACtrl "t1"; ACtrl "t2"; ACtrl "t3"])%nat
    as Hn by (cbn; lia).
  destruct (controller_stops_after_shutdown _ _ _ _ _ _ Hr Hn Hrun) as (-> & _).
  exists s', tr. split; [reflexivity |].
  vm_compute in Hrun. injection Hrun as <- <-.
  split; reflexivity.
Defined.

(** X8: a stopped controller stays stopped: along any schedule that
    starts with the controller out of its loop, no event is erased or
    serviced any more, and the pending vector is the old one followed by the
    events pushed since. *)
Theorem stopped_controller_services_nothing
    (acts : list Action) (s : State) (c' : Ctrl) (s' : State) (tr : list Effect) :
  run acts Stopped s = Some (c', s', tr) ->
  c' = Stopped /\ serviced tr = [] /\ erased tr = []
  /\ pending s' = pending s ++ inserted tr.
Proof.
  revert s c' s' tr.
  induction acts as [| a acts IH]; intros s c' s' tr Hrun.
  - injection Hrun as <- <- <-. cbn. by rewrite app_nil_r.
  - cbn [run] in Hrun.
    destruct (sys_step a Stopped s) as [[[c1 s1] tr1] |] eqn:Hstep; [| done].
    destruct (run acts c1 s1) as [[[c2 s2] tr2] |] eqn:Hrest; [| done].
    injection Hrun as <- <- <-.
    assert (c1 = Stopped /\ serviced tr1 = [] /\ erased tr1 = []
            /\ pending s1 = pending s ++ inserted tr1) as (-> & Hs1 & He1 & Hp1).
    { destruct a as [now | d now | cmd |]; cbn in Hstep.
      - injection Hstep as <- <- <-. cbn. by rewrite app_nil_r.
      - by injection Hstep as <- <- <-.
      - destruct (user_input_thread cmd s) as [[su tru] bu] eqn:Hu.
        injection Hstep as <- <- <-.
        destruct (user_input_thread_frame cmd s) as (Hp & _ & Hi & He & Hsv).
        rewrite Hu in Hp, Hi, He, Hsv. cbn [fst snd] in Hp, Hi, He, Hsv.
        by rewrite Hp, Hi, He, Hsv, app_nil_r.
      - injection Hstep as <- <- <-. cbn. by rewrite app_nil_r. }
    destruct (IH _ _ _ _ Hrest) as (-> & Hs2 & He2 & Hp2).
    destruct (trace_readers_app tr1 tr2) as (-> & -> & -> & _).
    by rewrite Hs1, Hs2, He1, He2, Hp2, Hp1, app_assoc.
Qed.

Lemma stopped_controller_services_nothing_witness :
  let s := mkState [mkEvent PRINTER 1 10] false false false 1 false None in
  exists s' tr,
    run [ADevice KEYBOARD 20; ACtrl "t0"; AUser "status"; ACtrl "t1"] Stopped s
    = Some (Stopped, s', tr)
    /\ pending s' = [mkEvent PRINTER 1 10; mkEvent KEYBOARD 2 20].
Proof.
  intros s.
  destruct (run [ADevice KEYBOARD 20; ACtrl "t0"; AUser "status"; ACtrl "t1"] Stopped s)
    as [[[c' s'] tr] |] eqn:Hrun; [| vm_compute in Hrun; discriminate Hrun].
  destruct (stopped_controller_services_nothing _ _ _ _ _ Hrun) as (-> & _ & _ & Hp).
  exists s', tr. split; [reflexivity |].
  vm_compute in Hrun. injection Hrun as <- <-. reflexivity.
Defined.

(** ** First come, first served within a device *)








(** ** One service at a time *)

Lemma isr_bracket_app cur tr1 tr2 :
  isr_bracket cur (tr1 ++ tr2)
  = match isr_bracket cur tr1 with
    | Some cur' => isr_bracket cur' tr2
    | None => None
    end.
Proof.
  revert cur. induction tr1 as [| e tr1 IH]; intros cur; [done |].
  destruct e; cbn [app isr_bracket]; try apply IH.
  - destruct cur; [done | apply IH].
  - destruct cur as [ev' |]; [| done]. destruct (bool_decide (ev' = ev)); [apply IH | done].
Qed.

Lemma isr_bracket_ignored_lines s cur tl :
  isr_bracket cur (ignored_lines s ++ tl) = isr_bracket cur tl.
Proof.
  unfold ignored_lines. induction (pending s) as [| ev p IH]; [done |].
  cbn [flat_map]. rewrite <- app_assoc.
  by destruct (is_masked s (dev ev)).
Qed.

Lemma sys_step_isr_bracket a c s c' s' tr :
  sys_step a c s = Some (c', s', tr) ->
  isr_bracket (in_service c) tr = Some (in_service c').
Proof.
  destruct a as [now | d now | cmd |]; cbn [sys_step]; intros H.
  - destruct c; cbn [controller_thread] in H.
    + by destruct (running s); injection H as <- <- <-.
    + destruct (negb (bool_decide (pending s = [])) || negb (running s)).
      2:{ by injection H as <- <- <-. }
      destruct (select_pass s) as [[[c1 s1] tr1] |] eqn:Hsel; [| done].
      injection H as <- <- <-.
      apply select_pass_cases in Hsel
        as [(-> & _ & -> & _) | [(-> & _ & -> & _) | (ev & -> & _ & _ & _ & ->)]];
        [done | | done].
      change (isr_bracket None (ignored_lines s ++ [Unlock; WaitFor 200]) = Some None).
      by rewrite isr_bracket_ignored_lines.
    + by injection H as <- <- <-.
    + by injection H as <- <- <-.
    + injection H as <- <- <-. cbn. by rewrite bool_decide_eq_true_2.
    + by injection H as <- <- <-.
  - by injection H as <- <- <-.
  - destruct (user_input_thread cmd s) as [[su tru] bu] eqn:Hu.
    injection H as <- <- <-. unfold user_input_thread in Hu.
    destruct (String.eqb cmd ""); [by injection Hu as _ <- _ |].
    destruct (Console.extract cmd) as [token rest].
    destruct (Console.extract rest) as [which rest'].
    repeat match type of Hu with
           | context [if String.eqb ?a ?b then _ else _] => destruct (String.eqb a b)
           end; by injection Hu as _ <- _.
  - by injection H as <- <- <-.
Qed.

(** X9: at most one event is in service at any time: in the trace of any
    schedule a service starts only when none is running, and the service
    that ends is the one that was started last; the event in service at the
    end is the one the controller is working on. *)
Theorem one_service_at_a_time
    (acts : list Action) (c : Ctrl) (s : State) (c' : Ctrl) (s' : State)
    (tr : list Effect) :
  run acts c s = Some (c', s', tr) ->
  isr_bracket (in_service c) tr = Some (in_service c').
Proof.
  revert c s c' s' tr.
  induction acts as [| a acts IH]; intros c s c' s' tr Hrun.
  - by injection Hrun as <- <- <-.
  - cbn [run] in Hrun.
    destruct (sys_step a c s) as [[[c1 s1] tr1] |] eqn:Hstep; [| done].
    destruct (run acts c1 s1) as [[[c2 s2] tr2] |] eqn:Hrest; [| done].
    injection Hrun as <- <- <-.
    rewrite isr_bracket_app, (sys_step_isr_bracket _ _ _ _ _ _ Hstep).
    by apply (IH _ _ _ _ _ Hrest).
Qed.

Lemma one_service_at_a_time_witness :
  let acts := [ADevice MOUSE 1; ADevice KEYBOARD 2; ACtrl "a"; ACtrl "b"; ACtrl "c";
               ADevice PRINTER 3; ACtrl "d"; ACtrl "e"; ACtrl "f"; ACtrl "g"] in
  exists c s tr,
    run acts LoopHead (initial_state None) = Some (c, s, tr)
    /\ c = IsrWork (mkEvent MOUSE 1 1)
    /\ isr_bracket None tr = Some (Some (mkEvent MOUSE 1 1)).
Proof.
  intros acts.
  destruct (run acts LoopHead (initial_state None)) as [[[c s] tr] |] eqn:Hrun;
    [| vm_compute in Hrun; discriminate Hrun].
  pose proof (one_service_at_a_time acts LoopHead (initial_state None) c s tr Hrun) as Hb.
  exists c, s, tr. split; [reflexivity |].
  vm_compute in Hrun. injection Hrun as <- <- <-.
  split; [reflexivity | exact Hb].
Defined.

(** ** The mask writes are the only accesses outside the lock *)

Lemma lock_discipline_app held tr1 tr2 :
  lock_discipline held (tr1 ++ tr2)
  = lock_discipline held tr1 && lock_discipline (lock_after held tr1) tr2.
Proof.
  revert held. induction tr1 as [| e tr1 IH]; intros held; [done |].
  destruct e; cbn [app lock_discipline lock_after]; rewrite ?IH;
    try done; by destruct held.
Qed.

Lemma lock_after_ignored_lines s held tl :
  lock_after held (ignored_lines s ++ tl) = lock_after held tl.
Proof.
  unfold ignored_lines. induction (pending s) as [| ev p IH]; [done |].
  cbn [flat_map]. rewrite <- app_assoc.
  by destruct (is_masked s (dev ev)).
Qed.

Lemma no_mask_write_ignored_lines s tl :
  forallb (fun e => negb (is_mask_write e)) (ignored_lines s ++ tl)
  = forallb (fun e => negb (is_mask_write e)) tl.
Proof.
  unfold ignored_lines. induction (pending s) as [| ev p IH]; [done |].
  cbn [flat_map]. rewrite <- app_assoc.
  by destruct (is_masked s (dev ev)).
Qed.

(** The trace of a step either keeps the discipline, gives the lock back
    and writes no mask, or breaks the discipline and writes a mask. *)
Lemma sys_step_lock a c s c' s' tr :
  sys_step a c s = Some (c', s', tr) ->
  (lock_discipline false tr = true /\ lock_after false tr = false
   /\ forallb (fun e => negb (is_mask_write e)) tr = true)
  \/ (lock_discipline false tr = false
      /\ forallb (fun e => negb (is_mask_write e)) tr = false).
Proof.
  destruct a as [now | d now | cmd |]; cbn [sys_step]; intros H.
  - left. split; [by eapply controller_thread_lock_discipline |].
    destruct c; cbn [controller_thread] in H.
    + by destruct (running s); injection H as <- <- <-.
    + destruct (negb (bool_decide (pending s = [])) || negb (running s)).
      2:{ by injection H as <- <- <-. }
      destruct (select_pass s) as [[[c1 s1] tr1] |] eqn:Hsel; [| done].
      injection H as <- <- <-.
      apply select_pass_cases in Hsel
        as [(_ & _ & -> & _) | [(_ & _ & -> & _) | (ev & _ & _ & _ & _ & ->)]];
        [done | | done].
      split.
      * change (lock_after true (ignored_lines s ++ [Unlock; WaitFor 200]) = false).
        by rewrite lock_after_ignored_lines.
      * change (forallb (fun e => negb (is_mask_write e))
                        (ignored_lines s ++ [Unlock; WaitFor 200]) = true).
        by rewrite no_mask_write_ignored_lines.
    + by injection H as <- <- <-.
    + by injection H as <- <- <-.
    + by injection H as <- <- <-.
    + by injection H as <- <- <-.
  - injection H as <- <- <-. by left.
  - destruct (user_input_thread cmd s) as [[su tru] bu] eqn:Hu.
    injection H as <- <- <-. unfold user_input_thread in Hu.
    destruct (String.eqb cmd ""); [injection Hu as _ <- _; by left |].
    destruct (Console.extract cmd) as [token rest].
    destruct (Console.extract rest) as [which rest'].
    repeat match type of Hu with
           | context [if String.eqb ?a ?b then _ else _] => destruct (String.eqb a b)
           end; injection Hu as _ <- _; (by left) || (by right).
  - injection H as <- <- <-. by left.
Qed.

(** X10: in the trace of any schedule, the pending vector and the masks
    are accessed under the lock, and the lock is taken and released in
    turn, exactly when the trace holds no write to a mask flag: those
    writes are the only accesses that are made outside the lock. *)
Theorem only_mask_writes_bypass_lock
    (acts : list Action) (c : Ctrl) (s : State) (c' : Ctrl) (s' : State)
    (tr : list Effect) :
  run acts c s = Some (c', s', tr) ->
  lock_discipline false tr = forallb (fun e => negb (is_mask_write e)) tr.
Proof.
  intros Hrun.
  assert ((lock_discipline false tr = true /\ lock_after false tr = false
           /\ forallb (fun e => negb (is_mask_write e)) tr = true)
          \/ (lock_discipline false tr = false
              /\ forallb (fun e => negb (is_mask_write e)) tr = false)) as Hcases.
  { revert c s c' s' tr Hrun.
    induction acts as [| a acts IH]; intros c s c' s' tr Hrun.
    - injection Hrun as <- <- <-. by left.
    - cbn [run] in Hrun.
      destruct (sys_step a c s) as [[[c1 s1] tr1] |] eqn:Hstep; [| done].
      destruct (run acts c1 s1) as [[[c2 s2] tr2] |] eqn:Hrest; [| done].
      injection Hrun as <- <- <-.
      rewrite lock_discipline_app, forallb_app.
      apply sys_step_lock in Hstep as [(Hd1 & Ha1 & Hw1) | (Hd1 & Hw1)].
      + rewrite Hd1, Ha1, Hw1.
        destruct (IH _ _ _ _ _ Hrest) as [(Hd2 & Ha2 & Hw2) | (Hd2 & Hw2)].
        * left. rewrite Hd2, Hw2. split; [done |]. split; [| done].
          clear -Ha1 Ha2. revert Ha1. generalize false at 1 3.
          induction tr1 as [| e tr1 IHt]; intros h Ha1; cbn in *; [by subst |].
          destruct e; cbn; by apply IHt.
        * right. by rewrite Hd2, Hw2.
      + right. by rewrite Hd1, Hw1. }
  destruct Hcases as [(-> & _ & ->) | (-> & ->)]; done.
Qed.

Lemma only_mask_writes_bypass_lock_witness :
  let acts := [ADevice MOUSE 1; ACtrl "a"; AUser "status"; ACtrl "b"; AUser "exit";
               ACtrl "c"; AMain] in
  exists c s tr,
    run acts LoopHead (initial_state None) = Some (c, s, tr)
    /\ lock_discipline false tr = true.
Proof.
  intros acts.
  destruct (run acts LoopHead (initial_state None)) as [[[c s] tr] |] eqn:Hrun;
    [| vm_compute in Hrun; discriminate Hrun].
  pose proof (only_mask_writes_bypass_lock acts LoopHead (initial_state None) c s tr Hrun) as Hl.
  exists c, s, tr. split; [reflexivity |].
  vm_compute in Hrun. injection Hrun as <- <- <-.
  rewrite Hl. reflexivity.
Defined.

(** ** Console lines *)

Lemma device_of_letter_Some w d :
  device_of_letter w = Some d ->
  (w = "k" /\ d = KEYBOARD) \/ (w = "m" /\ d = MOUSE) \/ (w = "p" /\ d = PRINTER).
Proof.
  unfold device_of_letter.
  destruct (String.eqb_spec w "k") as [-> | _]; [intros [= <-]; tauto |].
  destruct (String.eqb_spec w "m") as [-> | _]; [intros [= <-]; tauto |].
  destruct (String.eqb_spec w "p") as [-> | _]; [intros [= <-]; tauto | done].
Qed.

Lemma is_masked_set_masked d b s d' :
  is_masked (set_masked d b s) d' = if decide (d' = d) then b else is_masked s d'.
Proof.
  rewrite !is_masked_flag. destruct d, d'; cbn; done.
Qed.

Lemma extract_nonempty cmd token rest :
  Console.extract cmd = (token, rest) -> token <> "" -> String.eqb cmd "" = false.
Proof.
  intros H Ht. destruct (String.eqb_spec cmd "") as [-> | _]; [| done].
  cbn in H. by injection H as <- _.
Qed.

(** X11: a [mask] (or [unmask]) line with one of the letters [k], [m],
    [p] sets (clears) the flag of that device and nothing else: the other
    flags, the pending vector, the counter and [running] are as before; it
    prints the name of the device and notifies once; doing it again changes
    nothing; and after [mask] no pass extracts an event of that device. *)
Theorem mask_command_sets_one_flag
    (cmd token rest which rest' : string) (d : Device) (b : bool) (s : State) :
  Console.extract cmd = (token, rest) ->
  token = (if b then "mask" else "unmask") ->
  Console.extract rest = (which, rest') ->
  device_of_letter which = Some d ->
  user_input_thread cmd s
  = (set_masked d b s,
     [WriteMask d b;
      Cout (device_name d +:+ (if b then " masked." else " unmasked."));
      NotifyOne],
     true)
  /\ (forall d', is_masked (set_masked d b s) d' = if decide (d' = d) then b else is_masked s d')
  /\ pending (set_masked d b s) = pending s
  /\ global_seq (set_masked d b s) = global_seq s
  /\ running (set_masked d b s) = running s
  /\ set_masked d b (set_masked d b s) = set_masked d b s
  /\ (b = true -> forall ev s2 tr2,
        select_pass (set_masked d b s) = Some (IsrStart ev, s2, tr2) -> dev ev <> d).
Proof.
  intros Hcmd Htok Hrest Hd.
  split; [| split; [| split; [| split; [| split; [| split]]]]].
  - unfold user_input_thread.
    rewrite (extract_nonempty _ _ _ Hcmd) by (subst token; by destruct b).
    rewrite Hcmd, Hrest.
    apply device_of_letter_Some in Hd as [[-> ->] | [[-> ->] | [-> ->]]];
      subst token; by destruct b.
  - intros d'. apply is_masked_set_masked.
  - by destruct d.
  - by destruct d.
  - by destruct d.
  - by destruct d.
  - intros -> ev s2 tr2 Hsel Hdev.
    apply select_pass_extracts in Hsel as (H0 & Hl & _).
    destruct (scan_in_range (set_masked d true s)) as [Hneg | (ev' & _ & Hl' & Hu)].
    + lia.
    + rewrite Hl in Hl'. injection Hl' as <-.
      rewrite is_masked_set_masked, Hdev in Hu. by rewrite decide_True in Hu.
Qed.

Lemma mask_command_sets_one_flag_witness :
  let s := mkState [mkEvent MOUSE 1 10; mkEvent PRINTER 2 20] false false true 2 true None in
  user_input_thread "mask m now" s
  = (set_masked_mouse true s, [WriteMask MOUSE true; Cout "Mouse masked."; NotifyOne], true)
  /\ select_pass (set_masked_mouse true s)
     = Some (TimedWait, set_masked_mouse true s,
             [ReadPending; ReadMask;
              Cout "Mouse Interrupt Ignored (Masked)";
              Cout "Printer Interrupt Ignored (Masked)";
              Unlock; WaitFor 200]).
Proof.
  intros s. split; [| reflexivity].
  refine (proj1 (mask_command_sets_one_flag "mask m now" "mask" " m now" "m" " now"
                   MOUSE true s _ _ _ _)); reflexivity.
Defined.

(** X12: unmasking wakes the arbiter up: with every pending event masked,
    an [unmask] line for a device that has events pending notifies the
    controller, and its next pass extracts the oldest pending event of that
    device; no new interrupt is needed. *)
Theorem unmask_releases_oldest_pending
    (cmd rest which rest' now : string) (d : Device) (e : InterruptEvent) (s : State) :
  Console.extract cmd = ("unmask", rest) ->
  Console.extract rest = (which, rest') ->
  device_of_letter which = Some d ->
  fits_int (pending s) -> all_masked s ->
  e ∈ pending s -> dev e = d ->
  NotifyOne ∈ (user_input_thread cmd s).1.2
  /\ exists ev s2 tr2,
       controller_thread now Waiting (user_input_thread cmd s).1.1
       = Some (IsrStart ev, s2, tr2)
       /\ dev ev = d
       /\ (forall e', e' ∈ pending s -> dev e' = d -> seq ev <= seq e')
       /\ pending s ≡ₚ ev :: pending s2.
Proof.
  intros Hcmd Hrest Hd Hfit Hall He Hdev.
  assert (user_input_thread cmd s
          = (set_masked d false s,
             [WriteMask d false; Cout (device_name d +:+ " unmasked."); NotifyOne], true))
    as Heq.
  { unfold user_input_thread.
    rewrite (extract_nonempty _ _ _ Hcmd) by done. rewrite Hcmd, Hrest.
    by apply device_of_letter_Some in Hd as [[-> ->] | [[-> ->] | [-> ->]]]. }
  rewrite Heq. cbn [fst snd]. split.
  { apply list_elem_of_further, list_elem_of_further, list_elem_of_here. }
  assert (pending (set_masked d false s) = pending s) as Hp by (by destruct d).
  destruct (select_pass_eligible (set_masked d false s) e) as (ev & Hsel & Hl & Hu & Hbest).
  - by rewrite Hp.
  - by rewrite Hp.
  - rewrite is_masked_set_masked. by rewrite decide_True.
  - rewrite Hp in Hl, Hbest.
    assert (ev ∈ pending s) as Hin by (by eapply list_elem_of_lookup_2).
    assert (dev ev = d) as Hevd.
    { rewrite is_masked_set_masked in Hu.
      destruct (decide (dev ev = d)) as [Heq' | _]; [done |].
      rewrite (Hall ev Hin) in Hu. done. }
    exists ev. eexists _, _. split; [| split; [done | split]].
    + cbn [controller_thread]. rewrite Hp.
      assert (pending s <> []) as Hne
          by (intros Hnil; rewrite Hnil in He; by apply elem_of_nil in He).
      rewrite (bool_decide_eq_false_2 _ Hne). cbn [negb orb]. rewrite Hsel. reflexivity.
    + intros e' He' Hd'.
      destruct (Hbest e' He') as [Hlt | [_ Hq]].
      * rewrite is_masked_set_masked. by rewrite decide_True.
      * rewrite Hd', Hevd in Hlt. lia.
      * done.
    + cbn [pending set_pending]. rewrite Hp. by apply delete_Permutation.
Qed.

Lemma unmask_releases_oldest_pending_witness :
  let s := mkState [mkEvent KEYBOARD 3 30; mkEvent MOUSE 2 20; mkEvent MOUSE 1 10]
                   true true true 3 true None in
  exists s2 tr2,
    controller_thread "t" Waiting (user_input_thread "unmask m" s).1.1
    = Some (IsrStart (mkEvent MOUSE 1 10), s2, tr2).
Proof.
  intros s.
  destruct (unmask_releases_oldest_pending "unmask m" " m" "m" "" "t" MOUSE
              (mkEvent MOUSE 2 20) s) as (_ & ev & s2 & tr2 & Hstep & _).
  - reflexivity.
  - reflexivity.
  - reflexivity.
  - unfold fits_int, INT_MAX. cbn. lia.
  - intros e He. rewrite is_masked_flag. by destruct (dev e).
  - apply list_elem_of_further, list_elem_of_here.
  - reflexivity.
  - exists s2, tr2. rewrite Hstep. vm_compute in Hstep. by injection Hstep as <- _ _.
Defined.

(** X13: a line that is not empty and whose first word is none of [mask],
    [unmask], [status], [exit] (a line of blanks among them, whose first
    word is empty) changes no global and prints the list of commands,
    without notifying anyone; the empty line does nothing at all. *)
Theorem unknown_command_prints_help (cmd token rest : string) (s : State) :
  cmd <> "" ->
  Console.extract cmd = (token, rest) ->
  token <> "mask" -> token <> "unmask" -> token <> "status" -> token <> "exit" ->
  user_input_thread cmd s
  = (s, [Cout "Commands: mask k|m|p, unmask k|m|p, status, exit"], true)
  /\ user_input_thread "" s = (s, [], true).
Proof.
  intros Hne Hcmd H1 H2 H3 H4. split; [| done].
  unfold user_input_thread.
  apply String.eqb_neq in Hne, H1, H2, H3, H4.
  by rewrite Hne, Hcmd, H1, H2, H3, H4.
Qed.

Lemma unknown_command_prints_help_witness :
  let s := initial_state None in
  user_input_thread "   " s
  = (s, [Cout "Commands: mask k|m|p, unmask k|m|p, status, exit"], true)
  /\ user_input_thread "MASK k" s
     = (s, [Cout "Commands: mask k|m|p, unmask k|m|p, status, exit"], true).
Proof.
  intros s. split.
  - by apply (unknown_command_prints_help "   " "" "" s).
  - by apply (unknown_command_prints_help "MASK k" "MASK" " k" s).
Defined.


(** ** Words of a console line *)

Lemma skip_ws_blank_app ws x :
  blank ws = true -> Console.skip_ws (ws +:+ x) = Console.skip_ws x.
Proof.
  induction ws as [| c ws IH]; [done |].
  simpl.
  intros [Hc Hws]%andb_prop. rewrite Hc. by apply IH.
Qed.

Lemma skip_ws_no_leading_space x :
  match Console.skip_ws x with
  | EmptyString => True
  | String c _ => Console.is_space c = false
  end.
Proof.
  induction x as [| c x IH]; [done |]. cbn [Console.skip_ws].
  by destruct (Console.is_space c) eqn:Hc.
Qed.

Lemma take_word_no_space x : no_space (Console.take_word x).1 = true.
Proof.
  induction x as [| c x IH]; [done |]. cbn [Console.take_word].
  destruct (Console.is_space c) eqn:Hc; [done |].
  destruct (Console.take_word x) as [w r]. simpl in *. by rewrite Hc.
Qed.

Lemma take_word_of_word t : no_space t = true -> Console.take_word t = (t, EmptyString).
Proof.
  induction t as [| c t IH]; [done |]. cbn [no_space Console.take_word].
  intros [Hc Ht]%andb_prop. apply negb_true_iff in Hc. by rewrite Hc, (IH Ht).
Qed.

Lemma take_word_then_space t x :
  no_space t = true ->
  Console.take_word (t +:+ (" " +:+ x)) = (t, (" " +:+ x)).
Proof.
  induction t as [| c t IH]; [done |]. simpl.
  intros [Hc Ht]%andb_prop. apply negb_true_iff in Hc. by rewrite Hc, (IH Ht).
Qed.

Lemma skip_ws_of_word t : no_space t = true -> Console.skip_ws t = t.
Proof.
  destruct t as [| c t]; [done |]. cbn [no_space Console.skip_ws].
  intros [Hc _]%andb_prop. apply negb_true_iff in Hc. by rewrite Hc.
Qed.

(** The first word read from a line is free of white space, and it is
    empty only when nothing follows it. *)
Lemma extract_word cmd t r :
  Console.extract cmd = (t, r) ->
  no_space t = true /\ (t = EmptyString -> r = EmptyString).
Proof.
  unfold Console.extract. intros H. split.
  - pose proof (take_word_no_space (Console.skip_ws cmd)) as Hn. by rewrite H in Hn.
  - intros ->. pose proof (skip_ws_no_leading_space cmd) as Hs.
    destruct (Console.skip_ws cmd) as [| c x]; [by injection H as <- |].
    cbn [Console.take_word] in H. rewrite Hs in H. destruct (Console.take_word x). done.
Qed.

Lemma extract_two_words t w :
  no_space t = true -> no_space w = true -> t <> EmptyString ->
  Console.extract (t +:+ (" " +:+ w)) = (t, (" " +:+ w))
  /\ Console.extract ((" " +:+ w)) = (w, EmptyString).
Proof.
  intros Ht Hw Hne. unfold Console.extract. split.
  - destruct t as [| c t]; [done |].
    pose proof Ht as Ht'. cbn [no_space] in Ht'.
    apply andb_prop in Ht' as [Hc _]. apply negb_true_iff in Hc.
    simpl. rewrite Hc.
    by apply (take_word_then_space (String c t)).
  - change (Console.skip_ws (" " +:+ w)) with (Console.skip_ws w).
    rewrite (skip_ws_of_word w Hw). by apply take_word_of_word.
Qed.

(** X14: a console line is handled through its first two words only:
    leading blanks, the amount of white space between the words and all
    that follows the second word make no difference.  Any non-empty line
    has the effect of the line made of its first two words and one space. *)
Theorem console_line_normal_form (cmd t r w r' : string) (s : State) :
  cmd <> "" ->
  Console.extract cmd = (t, r) ->
  Console.extract r = (w, r') ->
  user_input_thread cmd s = user_input_thread (t +:+ (" " +:+ w)) s.
Proof.
  intros Hne Hcmd Hr.
  destruct (extract_word _ _ _ Hcmd) as (Ht & Hempty).
  destruct (extract_word _ _ _ Hr) as (Hw & _).
  apply String.eqb_neq in Hne.
  destruct (decide (t = EmptyString)) as [-> | Htne].
  - rewrite (Hempty eq_refl) in Hr. cbn in Hr. injection Hr as <- <-.
    unfold user_input_thread. by rewrite Hne, Hcmd.
  - destruct (extract_two_words t w Ht Hw Htne) as (H1 & H2).
    unfold user_input_thread at 2.
    assert (String.eqb (t +:+ (" " +:+ w)) "" = false) as ->.
    { apply String.eqb_neq. by destruct t. }
    rewrite H1, H2.
    unfold user_input_thread. by rewrite Hne, Hcmd, Hr.
Qed.

Lemma console_line_normal_form_witness :
  let s := initial_state None in
  user_input_thread "	 unmask   p  please" s = user_input_thread "unmask p" s.
Proof.
  intros s.
  apply (console_line_normal_form "	 unmask   p  please" "unmask" "   p  please"
           "p" "  please" s); [done | reflexivity | reflexivity].
Defined.

(** ** Raising an interrupt *)

Lemma delete_last_app {A} (l : list A) x : delete (length l) (l ++ [x]) = l.
Proof.
  induction l as [| y l IH]; [done |].
  change (delete (length (y :: l)) ((y :: l) ++ [x]))
    with (y :: delete (length l) (l ++ [x])).
  by rewrite IH.
Qed.

(** X16: an interrupt that outranks everything eligible is served next:
    when a device thread pushes an event of an unmasked device while every
    unmasked pending event belongs to a device of lower priority (the empty
    vector included), the next pass of the controller extracts exactly that
    event and leaves the vector as it was before the push. *)
Theorem raised_interrupt_served_next
    (d : Device) (now : Z) (t : string) (s : State) :
  is_masked s d = false ->
  (forall e, e ∈ pending s -> is_masked s (dev e) = false ->
     device_value (dev e) < device_value d) ->
  Z.of_nat (length (pending s)) < INT_MAX ->
  exists s2 tr2,
    controller_thread t Waiting (device_thread d now s).1
    = Some (IsrStart (mkEvent d (to_llong (global_seq s + 1)) now), s2, tr2)
    /\ pending s2 = pending s
    /\ (device_thread d now s).2
       = [Lock; PushPending (mkEvent d (to_llong (global_seq s + 1)) now); Unlock; NotifyOne].
Proof.
  intros Hd Hlow Hlen.
  set (new := mkEvent d (to_llong (global_seq s + 1)) now).
  set (s1 := (device_thread d now s).1).
  assert (pending s1 = pending s ++ [new]) as Hp1 by done.
  assert (forall x, is_masked s1 x = is_masked s x) as Hm1 by done.
  destruct (select_pass_eligible s1 new) as (ev & Hsel & Hl & Hu & Hbest).
  - unfold fits_int. rewrite Hp1, length_app. cbn. lia.
  - rewrite Hp1. apply elem_of_app. right. apply list_elem_of_here.
  - by rewrite Hm1.
  - assert (ev = new /\ Z.to_nat (best_idx (scan s1)) = length (pending s)) as [-> Hidx].
    { rewrite Hp1 in Hl.
      destruct (decide (Z.to_nat (best_idx (scan s1)) < length (pending s))%nat) as [Hlt | Hge].
      - rewrite lookup_app_l in Hl by done.
        apply list_elem_of_lookup_2 in Hl. rewrite Hm1 in Hu.
        specialize (Hlow ev Hl Hu).
        assert (served_before ev new) as [Hv | [Hv _]].
        { apply Hbest; [rewrite Hp1; apply elem_of_app; right; apply list_elem_of_here |].
          by rewrite Hm1. }
        + cbn in Hv. lia.
        + rewrite Hv in Hlow. cbn in Hlow. lia.
      - rewrite lookup_app_r in Hl by lia.
        destruct (Z.to_nat (best_idx (scan s1)) - length (pending s))%nat as [| k] eqn:Hk;
          [| by destruct k].
        injection Hl as <-. split; [done | lia]. }
    eexists _, _. split; [| split; [| done]].
    + cbn [controller_thread].
      assert (pending s1 <> []) as Hne by (rewrite Hp1; by destruct (pending s)).
      rewrite (bool_decide_eq_false_2 _ Hne). cbn [negb orb]. rewrite Hsel. reflexivity.
    + cbn [pending set_pending]. rewrite Hp1, Hidx. apply delete_last_app.
Qed.

Lemma raised_interrupt_served_next_witness :
  let s := mkState [mkEvent KEYBOARD 1 10; mkEvent PRINTER 2 20]
                   true false false 2 true None in
  exists s2 tr2,
    controller_thread "t" Waiting (device_thread MOUSE 30 s).1
    = Some (IsrStart (mkEvent MOUSE 3 30), s2, tr2)
    /\ pending s2 = pending s.
Proof.
  intros s.
  destruct (raised_interrupt_served_next MOUSE 30 "t" s) as (s2 & tr2 & Hstep & Hp & _).
  - reflexivity.
  - intros e He Hu. cbn in He.
    apply elem_of_cons in He as [-> | He]; [discriminate Hu |].
    apply elem_of_cons in He as [-> | He]; [cbn; lia |].
    by apply elem_of_nil in He.
  - unfold INT_MAX. cbn. lia.
  - by exists s2, tr2.
Defined.

(** X19: blanks in front of a command are skipped: a non-empty line
    preceded by any number of spaces, tabs or other white space is handled
    as the line itself. *)
Theorem leading_blanks_ignored (ws cmd : string) (s : State) :
  blank ws = true -> cmd <> "" ->
  user_input_thread (ws +:+ cmd) s = user_input_thread cmd s.
Proof.
  intros Hws Hne. unfold user_input_thread, Console.extract.
  rewrite (skip_ws_blank_app ws cmd Hws).
  assert (String.eqb (ws +:+ cmd) "" = false) as ->.
  { apply String.eqb_neq. destruct ws; [done |]. simpl. done. }
  apply String.eqb_neq in Hne. by rewrite Hne.
Qed.

Lemma leading_blanks_ignored_witness :
  let s := initial_state None in
  user_input_thread "   	exit" s = (set_running false s, [Cout "Exiting..."; NotifyAll], false).
Proof.
  intros s.
  change "   	exit" with ("   	" +:+ "exit").
  rewrite (leading_blanks_ignored "   	" "exit" s); [reflexivity | reflexivity | done].
Defined.

(** ** The log file *)

Lemma logged_ignored_lines s : logged (ignored_lines s) = [] /\ completed (ignored_lines s) = [].
Proof.
  unfold ignored_lines.
  induction (pending s) as [| ev p [IH1 IH2]]; [done |].
  cbn [flat_map]. unfold logged, completed in *.
  rewrite !flat_map_app, IH1, IH2. by destruct (is_masked s (dev ev)).
Qed.

Lemma log_readers_app tr1 tr2 :
  logged (tr1 ++ tr2) = logged tr1 ++ logged tr2
  /\ completed (tr1 ++ tr2) = completed tr1 ++ completed tr2.
Proof. unfold logged, completed. by rewrite !flat_map_app. Qed.

Lemma append_log_fmap line file :
  append_log line file = (fun ls => ls ++ [line]) <$> file.
Proof. by destruct file. Qed.

Lemma sys_step_log a c s c' s' tr :
  sys_step a c s = Some (c', s', tr) ->
  log_file s' = (fun ls => ls ++ logged tr) <$> log_file s
  /\ length (logged tr) = (length (serviced tr) + length (completed tr))%nat.
Proof.
  assert (forall o : option (list string), o = (fun ls => ls ++ []) <$> o) as Hid.
  { intros [ls |]; cbn; [by rewrite app_nil_r | done]. }
  destruct a as [now | d now | cmd |]; cbn [sys_step]; intros H.
  - destruct c; cbn [controller_thread] in H.
    + destruct (running s); injection H as <- <- <-; (split; [apply Hid | done]).
    + destruct (negb (bool_decide (pending s = [])) || negb (running s)).
      2:{ injection H as <- <- <-. split; [apply Hid | done]. }
      destruct (select_pass s) as [[[c1 s1] tr1] |] eqn:Hsel; [| done].
      injection H as <- <- <-.
      apply select_pass_cases in Hsel
        as [(_ & -> & -> & _) | [(_ & -> & -> & _) | (ev & _ & _ & _ & -> & ->)]].
      * split; [apply Hid | done].
      * destruct (logged_ignored_lines s) as (Hl & Hc).
        destruct (ignored_lines_only_print s) as (_ & _ & Hs).
        destruct (log_readers_app (ignored_lines s) [Unlock; WaitFor 200]) as (Hl' & Hc').
        destruct (trace_readers_app (ignored_lines s) [Unlock; WaitFor 200])
          as (_ & _ & Hs' & _).
        change (log_file s
                = (fun ls => ls ++ logged (ignored_lines s ++ [Unlock; WaitFor 200]))
                    <$> log_file s
                /\ length (logged (ignored_lines s ++ [Unlock; WaitFor 200]))
                   = (length (serviced (ignored_lines s ++ [Unlock; WaitFor 200]))
                      + length (completed (ignored_lines s ++ [Unlock; WaitFor 200])))%nat).
        rewrite Hl', Hc', Hs', Hl, Hc, Hs. split; [apply Hid | done].
      * split; [apply Hid | done].
    + injection H as <- <- <-. split; [apply Hid | done].
    + injection H as <- <- <-. split; [apply append_log_fmap | done].
    + injection H as <- <- <-. split; [apply append_log_fmap | done].
    + injection H as <- <- <-. split; [apply Hid | done].
  - injection H as <- <- <-. split; [apply Hid | done].
  - destruct (user_input_thread cmd s) as [[su tru] bu] eqn:Hu.
    injection H as <- <- <-. unfold user_input_thread in Hu.
    destruct (String.eqb cmd ""); [injection Hu as <- <- _; (split; [apply Hid | done]) |].
    destruct (Console.extract cmd) as [token rest].
    destruct (Console.extract rest) as [which rest'].
    repeat match type of Hu with
           | context [if String.eqb ?a ?b then _ else _] => destruct (String.eqb a b)
           end; injection Hu as <- <- _; (split; [apply Hid | done]).
  - injection H as <- <- <-. split; [apply Hid | done].
Qed.

Lemma run_log acts : forall c s c' s' tr,
  run acts c s = Some (c', s', tr) ->
  log_file s' = (fun ls => ls ++ logged tr) <$> log_file s
  /\ length (logged tr) = (length (serviced tr) + length (completed tr))%nat.
Proof.
  induction acts as [| a acts IH]; intros c s c' s' tr Hrun.
  - injection Hrun as <- <- <-. split; [| done].
    destruct (log_file s); cbn; [by rewrite app_nil_r | done].
  - cbn [run] in Hrun.
    destruct (sys_step a c s) as [[[c1 s1] tr1] |] eqn:Hstep; [| done].
    destruct (run acts c1 s1) as [[[c2 s2] tr2] |] eqn:Hrest; [| done].
    injection Hrun as <- <- <-.
    apply sys_step_log in Hstep as (Hf1 & Hn1).
    apply IH in Hrest as (Hf2 & Hn2).
    destruct (log_readers_app tr1 tr2) as (-> & ->).
    destruct (trace_readers_app tr1 tr2) as (_ & _ & -> & _).
    split.
    + rewrite Hf2, Hf1. destruct (log_file s); cbn; [by rewrite app_assoc | done].
    + rewrite !length_app. lia.
Qed.

(** X17: the log is append-only and best effort: along any schedule, a
    log file that can be opened holds what it held before followed by the
    lines handed to [append_log], in call order, one per service started
    and one per service completed; a log file that cannot be opened stays
    as it is. *)
Theorem log_is_append_only
    (acts : list Action) (c : Ctrl) (s : State) (c' : Ctrl) (s' : State)
    (tr : list Effect) :
  run acts c s = Some (c', s', tr) ->
  log_file s' = (fun ls => ls ++ logged tr) <$> log_file s
  /\ length (logged tr) = (length (serviced tr) + length (completed tr))%nat.
Proof. apply run_log. Qed.

Lemma log_is_append_only_witness :
  let s := mkState [mkEvent MOUSE 7 70] false false false 7 true (Some ["old line"]) in
  exists c' s' tr,
    run [ACtrl "t0"; ACtrl "t1"; ACtrl "12:00:01"; ADevice PRINTER 80; ACtrl "12:00:02"]
        LoopHead s = Some (c', s', tr)
    /\ log_file s' = Some ["old line"; "START | Mouse | seq=7 | 12:00:01";
                           "END   | Mouse | seq=7 | 12:00:02"].
Proof.
  intros s.
  destruct (run [ACtrl "t0"; ACtrl "t1"; ACtrl "12:00:01"; ADevice PRINTER 80; ACtrl "12:00:02"]
                LoopHead s) as [[[c' s'] tr] |] eqn:Hrun;
    [| vm_compute in Hrun; discriminate Hrun].
  destruct (log_is_append_only _ _ _ _ _ _ Hrun) as (Hlog & _).
  exists c', s', tr. split; [reflexivity |].
  rewrite Hlog. vm_compute in Hrun. injection Hrun as <- <- <-. reflexivity.
Defined.

(** X18: [main] starts every run with a fresh log: whatever the file held
    before, after start-up and any schedule it holds the header line
    followed by the lines appended during the run; if it cannot be opened
    the run goes on without a log. *)
Theorem log_starts_with_header
    (started : Z) (file : option (list string)) (acts : list Action) (c' : Ctrl)
    (s' : State) (tr : list Effect) :
  run acts LoopHead (main_start started file).1 = Some (c', s', tr) ->
  log_file s'
  = match file with
    | Some _ => Some (("ISR Log Started: " +:+ pretty started) :: logged tr)
    | None => None
    end.
Proof.
  intros Hrun. apply run_log in Hrun as (-> & _). by destruct file.
Qed.

Lemma log_starts_with_header_witness :
  exists c' s' tr,
    run [ADevice KEYBOARD 5; ACtrl "a"; ACtrl "b"; ACtrl "c"] LoopHead
        (main_start 1700000000 (Some ["stale"; "lines"])).1 = Some (c', s', tr)
    /\ log_file s' = Some ["ISR Log Started: 1700000000"; "START | Keyboard | seq=1 | c"].
Proof.
  destruct (run [ADevice KEYBOARD 5; ACtrl "a"; ACtrl "b"; ACtrl "c"] LoopHead
                (main_start 1700000000 (Some ["stale"; "lines"])).1)
    as [[[c' s'] tr] |] eqn:Hrun; [| vm_compute in Hrun; discriminate Hrun].
  pose proof (log_starts_with_header _ _ _ _ _ _ Hrun) as Hlog.
  exists c', s', tr. split; [reflexivity |].
  rewrite Hlog. vm_compute in Hrun. injection Hrun as <- <- <-. reflexivity.
Defined.

(** ** Draining under masks *)

Lemma drain_unmasked n : forall s,
  (length (filter (fun e => is_masked s (dev e) = false) (pending s)) <= n)%nat ->
  fits_int (pending s) ->
  drain n s ≡ₚ filter (fun e => is_masked s (dev e) = false) (pending s)
  /\ StronglySorted served_before (drain n s).
Proof.
  induction n as [| n IH]; intros s Hlen Hfit.
  - cbn [drain]. destruct (filter _ (pending s)); [split; [done | constructor] | cbn in Hlen; lia].
  - destruct (filter (fun e => is_masked s (dev e) = false) (pending s)) as [| e0 rest] eqn:Hf.
    + cbn [drain].
      destruct (select_pass s) as [[[c1 s1] tr1] |] eqn:Hsel; [| split; [done | constructor]].
      destruct c1; try (split; [done | constructor]).
      apply select_pass_extracts in Hsel as (H0 & Hl & _).
      destruct (scan_in_range s) as [Hneg | (ev' & _ & Hl' & Hu)]; [lia |].
      apply list_elem_of_lookup_2 in Hl'.
      assert (ev' ∈ filter (fun e => is_masked s (dev e) = false) (pending s)) as Hin
          by (by apply list_elem_of_filter).
      rewrite Hf in Hin. by apply elem_of_nil in Hin.
    + assert (e0 ∈ filter (fun e => is_masked s (dev e) = false) (pending s)) as Hin
          by (rewrite Hf; apply list_elem_of_here).
      apply list_elem_of_filter in Hin as [Hu0 Hin0].
      destruct (select_pass_eligible s e0 Hfit Hin0 Hu0) as (ev & Hsel & Hl & Hu & Hbest).
      cbn [drain]. rewrite Hsel.
      set (s' := set_pending _ s).
      assert (pending s ≡ₚ ev :: pending s') as Hperm by (by apply delete_Permutation).
      assert (filter (fun e => is_masked s (dev e) = false) (pending s)
              ≡ₚ ev :: filter (fun e => is_masked s (dev e) = false) (pending s')) as Hfperm.
      { rewrite Hperm. by rewrite filter_cons_True. }
      assert (filter (fun e => is_masked s' (dev e) = false) (pending s')
              = filter (fun e => is_masked s (dev e) = false) (pending s')) as Hsame
          by reflexivity.
      destruct (IH s') as [Hp' Hs'].
      * rewrite Hsame.
        pose proof (Permutation_length Hfperm) as HL. rewrite Hf in HL.
        cbn [length] in HL, Hlen. lia.
      * unfold fits_int in *. pose proof (Permutation_length Hperm) as HL.
        cbn [length] in HL. lia.
      * rewrite Hsame in Hp'.
        rewrite <- Hf. split.
        -- rewrite Hfperm. by constructor.
        -- constructor; [done |]. apply Forall_forall. intros x Hx.
           rewrite Hp' in Hx. apply list_elem_of_filter in Hx as [Hux Hx].
           apply Hbest; [| done]. rewrite Hperm. by apply list_elem_of_further.
Qed.

(** X20: under any setting of the masks, selecting and removing until
    the pass finds nothing more hands out exactly the pending events of the
    unmasked devices, by device priority descending and within a device by
    ascending sequence number; the events of masked devices are not handed
    out. *)
Theorem drain_serves_unmasked_in_order (s : State) :
  fits_int (pending s) ->
  drain (length (pending s)) s
    ≡ₚ filter (fun e => is_masked s (dev e) = false) (pending s)
  /\ StronglySorted served_before (drain (length (pending s)) s).
Proof.
  intros Hfit. apply drain_unmasked; [apply length_filter | done].
Qed.

Lemma drain_serves_unmasked_in_order_witness :
  let s := mkState [mkEvent PRINTER 1 10; mkEvent MOUSE 2 20; mkEvent KEYBOARD 3 30;
                    mkEvent PRINTER 4 40; mkEvent KEYBOARD 5 50]
                   false true false 5 true None in
  drain 5 s = [mkEvent KEYBOARD 3 30; mkEvent KEYBOARD 5 50; mkEvent PRINTER 1 10;
               mkEvent PRINTER 4 40]
  /\ StronglySorted served_before (drain 5 s).
Proof.
  intros s. split; [reflexivity |].
  refine (proj2 (drain_serves_unmasked_in_order s _)).
  unfold fits_int, INT_MAX. cbn. lia.
Defined.
